(** * zhmcclient._logging: the logger accessor and the API call-logging decorator

    A shallow embedding of [src/zhmcclient/_logging.py].

    The module has two functions.  [get_logger] fetches a named logger of
    Python's [logging] module and gives it a [NullHandler] when it has no
    handler yet.  [logged_api_call] is a decorator: it computes a display name
    for the decorated function from the frame that applies the decorator, and
    returns a wrapper ([log_api_call]) that, at every call, looks two frames up
    the stack to find the module of the caller and logs entry and exit of the
    call when that module is outside the [zhmcclient] package.

    Part I is the model.  What the source takes from Python's standard
    library ([logging], [inspect], string formatting) and from the
    [decorator] package is modelled as far as the source uses it, and the
    functions of the source are embedded statement by statement: [get_logger]
    as a function on the state of the logging module, the decorator and its
    wrapper in a small monad that threads that state, may raise, and records
    what the wrapper does.  Part II states and proves the properties. *)

From Stdlib Require Import Ascii String.
From stdpp Require Import gmap strings list.

(** * Part I: the model *)

(** ** Python strings *)

(** [s.split(sep)] for a one-character separator.  The result is never empty:
    a string without the separator gives the one-element list of the string
    itself. *)
Fixpoint split (sep : ascii) (s : string) : list string :=
  match s with
  | EmptyString => [EmptyString]
  | String c s' =>
      if Ascii.eqb c sep then EmptyString :: split sep s'
      else match split sep s' with
           | w :: ws => String c w :: ws
           | [] => [String c EmptyString]
           end
  end.

(** [s[:n]]: the first [n] characters of [s], all of [s] when it is shorter. *)
Fixpoint str_take (n : nat) (s : string) : string :=
  match n, s with
  | S n', String c s' => String c (str_take n' s')
  | _, _ => EmptyString
  end.

(** [s.rfind(c)]: the index of the last occurrence of [c], [None] for -1. *)
Fixpoint rfind (c : ascii) (s : string) : option nat :=
  match s with
  | EmptyString => None
  | String a s' =>
      match rfind c s' with
      | Some i => Some (S i)
      | None => if Ascii.eqb a c then Some 0 else None
      end
  end.


(** The part of a dotted name before its first dot. *)
Fixpoint first_component (s : string) : string :=
  match s with
  | EmptyString => EmptyString
  | String c s' =>
      if Ascii.eqb c "." then EmptyString else String c (first_component s')
  end.

(** The string of [n] characters [c]. *)
Fixpoint str_repeat (c : ascii) (n : nat) : string :=
  match n with
  | 0 => EmptyString
  | S n' => String c (str_repeat c n')
  end.


(** ** Exceptions and results *)

Record pyexn := PyExn { exc_type : string; exc_msg : string }.

Inductive outcome (A : Type) : Type :=
| Return (a : A)
| Raise (e : pyexn).
Arguments Return {A} a.
Arguments Raise {A} e.

(** What Python reports for [None.attr]. *)
Definition AttributeError_None (attr : string) : pyexn :=
  PyExn "AttributeError" ("'NoneType' object has no attribute '" +:+ attr +:+ "'").

(** What Python reports for [del x] when the local [x] was never bound. *)
Definition UnboundLocalError (var : string) : pyexn :=
  PyExn "UnboundLocalError"
        ("local variable '" +:+ var +:+ "' referenced before assignment").

(** ** The [logging] module

    The part of the standard logging machinery that is visible through the
    source: named loggers kept in one process-wide dictionary, handlers
    attached to loggers, levels, and the walk up the dotted-name hierarchy
    that delivers a record to handlers. *)

Definition NOTSET : nat := 0.
Definition DEBUG : nat := 10.
Definition INFO : nat := 20.
Definition WARNING : nat := 30.
Definition ERROR : nat := 40.
Definition CRITICAL : nat := 50.

(** [NullHandler] drops every record; [StreamHandler] stands for any handler
    a consumer of the library attaches to see output. *)
Inductive handler_kind := NullHandler | StreamHandler.

(** A handler object.  [h_id] is the identity of the object: two handlers
    made by two constructor calls differ in it. *)
Record handler := Handler { h_id : nat; h_kind : handler_kind; h_level : nat }.

#[global] Instance handler_kind_eq_dec : EqDecision handler_kind.
Proof. solve_decision. Defined.
#[global] Instance handler_eq_dec : EqDecision handler.
Proof. solve_decision. Defined.

Record logger := Logger {
  handlers : list handler;
  level : nat;
  propagate : bool;
  disabled : bool
}.

(** Where output ends up: a consumer's handler, or the standard error stream
    through the module's last-resort handler. *)
Inductive sink := SinkHandler (id : nat) | SinkStderr.

(** The state of the logging module: [loggerDict] is the manager's dictionary
    of loggers by name (the root logger under the empty name),
    [manager_disable] the level set by [logging.disable], [next_id] the
    identity the next created handler gets, [emitted] everything written so
    far. *)
Record logging_state := LoggingState {
  loggerDict : gmap string logger;
  manager_disable : nat;
  next_id : nat;
  emitted : list (sink * string)
}.

(** A logger as [logging] creates it: no handlers, level [NOTSET]; the root
    logger starts at [WARNING]. *)
Definition new_logger (name : string) : logger :=
  Logger [] (if decide (name = "") then WARNING else NOTSET) true false.

(** The logger object behind a name.  A name that has no entry yet behaves as
    a logger that was just created. *)
Definition the_logger (st : logging_state) (name : string) : logger :=
  default (new_logger name) (loggerDict st !! name).

Definition set_logger (name : string) (lg : logger) (st : logging_state)
  : logging_state :=
  LoggingState (<[name := lg]> (loggerDict st)) (manager_disable st)
               (next_id st) (emitted st).

(** [logging.getLogger(name)]: the logger of that name, created on first
    request.  The handle of a logger is its name: every request for a name
    yields the same object. *)
Definition getLogger (name : string) (st : logging_state)
  : string * logging_state :=
  match loggerDict st !! name with
  | Some _ => (name, st)
  | None => (name, set_logger name (new_logger name) st)
  end.

(** [logging.NullHandler()]: a new handler object. *)
Definition NullHandler_new (st : logging_state) : handler * logging_state :=
  (Handler (next_id st) NullHandler NOTSET,
   LoggingState (loggerDict st) (manager_disable st) (S (next_id st))
                (emitted st)).

(** [logger.addHandler(hdlr)]: appends unless that very object is attached
    already. *)
Definition addHandler (name : string) (hdlr : handler) (st : logging_state)
  : logging_state :=
  let lg := the_logger st name in
  if decide (hdlr ∈ handlers lg) then st
  else set_logger name
         (Logger (handlers lg ++ [hdlr]) (level lg) (propagate lg) (disabled lg))
         st.

(** The names [Manager._fixupParents] tries as parents of [name]:
    [name[:i]] for [i = name.rfind('.')], then [i = name.rfind('.', 0, i-1)],
    as long as [i > 0]. *)
Fixpoint parent_names (fuel : nat) (name : string) (i : option nat)
  : list string :=
  match fuel, i with
  | S fuel', Some (S i') =>
      str_take (S i') name
      :: parent_names fuel' name (rfind "." (str_take i' name))
  | _, _ => []
  end.

(** A logger followed by its ancestors, nearest first, the root last. *)
Definition logger_chain (name : string) : list string :=
  if decide (name = "") then [""]
  else name :: parent_names (String.length name) name (rfind "." name) ++ [""].

(** [logger.getEffectiveLevel()]: the first level that is set on the way up. *)
Fixpoint first_level (st : logging_state) (chain : list string) : nat :=
  match chain with
  | [] => NOTSET
  | c :: rest =>
      if decide (level (the_logger st c) = NOTSET) then first_level st rest
      else level (the_logger st c)
  end.

Definition getEffectiveLevel (st : logging_state) (name : string) : nat :=
  first_level st (logger_chain name).

(** [logger.isEnabledFor(lvl)]. *)
Definition isEnabledFor (st : logging_state) (name : string) (lvl : nat)
  : bool :=
  if decide (lvl ≤ manager_disable st)%nat then false
  else bool_decide (getEffectiveLevel st name ≤ lvl)%nat.

(** [hdlr.handle(record)] for a record with message [msg]. *)
Definition Handler_handle (h : handler) (msg : string) : list (sink * string) :=
  match h_kind h with
  | NullHandler => []
  | StreamHandler => [(SinkHandler (h_id h), msg)]
  end.

Definition handle_all (hs : list handler) (lvl : nat) (msg : string)
  : list (sink * string) :=
  flat_map (λ h, if decide (h_level h ≤ lvl)%nat then Handler_handle h msg else [])
           hs.

(** [logger.callHandlers(record)]: the handlers of the logger and of its
    ancestors, up to the first logger that does not propagate; returns the
    number of handlers found and what they wrote. *)
Fixpoint callHandlers (st : logging_state) (chain : list string) (lvl : nat)
  (msg : string) : nat * list (sink * string) :=
  match chain with
  | [] => (0, [])
  | c :: rest =>
      let lg := the_logger st c in
      let out := handle_all (handlers lg) lvl msg in
      if propagate lg then
        let '(found, out') := callHandlers st rest lvl msg in
        (length (handlers lg) + found, out ++ out')
      else (length (handlers lg), out)
  end.

(** [logger.log(lvl, msg)].  With no handler found anywhere, the last-resort
    handler writes records of level [WARNING] and above to standard error. *)
Definition Logger_log (lvl : nat) (name msg : string) (st : logging_state)
  : logging_state :=
  if isEnabledFor st name lvl then
    if disabled (the_logger st name) then st
    else
      let '(found, out) := callHandlers st (logger_chain name) lvl msg in
      let last_resort :=
        if decide (found = 0) then
          if decide (WARNING ≤ lvl)%nat then [(SinkStderr, msg)] else []
        else [] in
      LoggingState (loggerDict st) (manager_disable st) (next_id st)
                   (emitted st ++ out ++ last_resort)
  else st.

Definition Logger_debug : string → string → logging_state → logging_state :=
  Logger_log DEBUG.

(** The state of a process that has not touched [logging] yet. *)
Definition logging_initial : logging_state := LoggingState ∅ 0 0 [].

(** No consumer has attached a handler: every handler of every logger is a
    null handler. *)
Definition silent (st : logging_state) : Prop :=
  ∀ n h, h ∈ handlers (the_logger st n) → h_kind h = NullHandler.

(** What the handlers of consumers receive in a piece of output: the
    handler and the text; what went to standard error is left out. *)
Definition to_handlers (out : list (sink * string)) : list (nat * string) :=
  omap (λ o, match o.1 with
             | SinkHandler id => Some (id, o.2)
             | SinkStderr => None
             end) out.

(** What one [logger.log(lvl, msg)] adds to the output. *)
Definition written (lvl : nat) (name msg : string) (st : logging_state)
  : list (sink * string) :=
  drop (length (emitted st)) (emitted (Logger_log lvl name msg st)).

(** Two states with the same loggers, handlers, levels and handler
    identities: they differ at most in what was written. *)
Definition same_config (st st' : logging_state) : Prop :=
  loggerDict st = loggerDict st'
  ∧ manager_disable st = manager_disable st'
  ∧ next_id st = next_id st'.

(** ** [get_logger] (source lines 81-93) *)

Definition get_logger (name : string) (st : logging_state)
  : string * logging_state :=
  let '(logger, st) := getLogger name st in
  if decide (handlers (the_logger st logger) = []) then
    let '(hdlr, st) := NullHandler_new st in
    (logger, addHandler logger hdlr st)
  else (logger, st).

(** ** [get_logger] called from several threads

    The source takes no lock.  Between the statements of [get_logger]
    (source lines 90-93) another thread may run; each call of the [logging]
    module is taken as one step. *)

(** Where a thread is in [get_logger], with the locals it has bound. *)
Inductive get_logger_pc :=
| AtGetLogger
| AtTest (logger : string)
| AtNullHandler (logger : string)
| AtAddHandler (logger : string) (hdlr : handler)
| Returned (logger : string).

(** One step of a thread that runs [get_logger(name)]. *)
Definition thread_step (name : string) (pc : get_logger_pc)
  (st : logging_state) : get_logger_pc * logging_state :=
  match pc with
  | AtGetLogger =>
      let '(logger, st) := getLogger name st in (AtTest logger, st)
  | AtTest logger =>
      if decide (handlers (the_logger st logger) = [])
      then (AtNullHandler logger, st)
      else (Returned logger, st)
  | AtNullHandler logger =>
      let '(hdlr, st) := NullHandler_new st in (AtAddHandler logger hdlr, st)
  | AtAddHandler logger hdlr => (Returned logger, addHandler logger hdlr st)
  | Returned logger => (Returned logger, st)
  end.

(** The threads and the state they share; thread [i] takes a step. *)
Definition pool_step (name : string) (m : list get_logger_pc * logging_state)
  (i : nat) : list get_logger_pc * logging_state :=
  match m.1 !! i with
  | Some pc =>
      let '(pc', st') := thread_step name pc m.2 in (<[i := pc']> m.1, st')
  | None => m
  end.

(** A schedule names the thread that takes each step. *)
Definition run_schedule (name : string) (schedule : list nat)
  (m : list get_logger_pc * logging_state)
  : list get_logger_pc * logging_state :=
  foldl (pool_step name) m schedule.

(** The schedule in which the threads of [order] run one after the other,
    each from its call to its return. *)
Definition one_by_one (order : list nat) : list nat :=
  flat_map (replicate 4) order.

(** The steps a thread still has to take count as pending. *)
Definition pending (pc : get_logger_pc) : nat :=
  match pc with
  | Returned _ => 0
  | _ => 1
  end.

Fixpoint pending_threads (pool : list get_logger_pc) : nat :=
  match pool with
  | [] => 0
  | pc :: pool' => pending pc + pending_threads pool'
  end.

(** The logger a thread holds is the one it asked for. *)
Definition holds (name : string) (pc : get_logger_pc) : Prop :=
  match pc with
  | AtGetLogger => True
  | AtTest logger | AtNullHandler logger | Returned logger
  | AtAddHandler logger _ => logger = name
  end.

(** A thread about to attach a handler holds a null handler. *)
Definition attaches_null (pc : get_logger_pc) : Prop :=
  match pc with
  | AtAddHandler _ hdlr => h_kind hdlr = NullHandler
  | _ => True
  end.

(** The call of the thread has returned. *)
Definition has_returned (pc : get_logger_pc) : Prop :=
  match pc with
  | Returned _ => True
  | _ => False
  end.

(** Two threads that both test before either attaches. *)
Definition racing_schedule : list nat := [0; 0; 1; 1; 0; 0; 1; 1].

(** ** Modules, frames and [inspect] *)

(** A module object; [module_name] is its [__name__] attribute, [None] when
    the object has no such attribute. *)
Record pymodule := PyModule { module_name : option string }.

(** A frame of the call stack.  [f_code_name] is the name of the code that
    runs in the frame ([<module>] for the top level of a module, the class
    name for a class body, the function name for a function); [f_module] is
    the module [inspect.getmodule] finds for the frame, [None] when it finds
    none (code typed at the interactive prompt or run from a string);
    [f_back] is the frame of the caller, [None] at the bottom of the stack. *)
#[warnings="-register-all"] Inductive frame := Frame {
  f_code_name : string;
  f_module : option pymodule;
  f_back : option frame
}.

(** [obj.f_back] for [obj] a frame or [None]. *)
Definition getattr_f_back (obj : option frame) : outcome (option frame) :=
  match obj with
  | Some f => Return (f_back f)
  | None => Raise (AttributeError_None "f_back")
  end.

(** [inspect.getmodule(obj)] for [obj] a frame or [None]; for [None] it
    returns [None]. *)
Definition inspect_getmodule_frame (obj : option frame) : option pymodule :=
  match obj with
  | Some f => f_module f
  | None => None
  end.

(** [inspect.getframeinfo(obj)[2]], the function name of the frame;
    [getframeinfo] refuses [None]. *)
Definition inspect_getframeinfo_function (obj : option frame) : outcome string :=
  match obj with
  | Some f => Return (f_code_name f)
  | None => Raise (PyExn "TypeError" "None is not a frame or traceback object")
  end.

(** [hasattr(module, '__name__')] for [module] a module or [None]. *)
Definition hasattr_name (module : option pymodule) : bool :=
  match module with
  | Some m => bool_decide (is_Some (module_name m))
  | None => false
  end.

(** [module.__name__] for [module] a module or [None]. *)
Definition getattr_name (module : option pymodule) : outcome string :=
  match module with
  | Some m =>
      match module_name m with
      | Some n => Return n
      | None =>
          Raise (PyExn "AttributeError"
                       "'module' object has no attribute '__name__'")
      end
  | None => Raise (AttributeError_None "__name__")
  end.

(** [l[i]] on a list. *)
Definition getitem {A : Type} (l : list A) (i : nat) : outcome A :=
  match l !! i with
  | Some x => Return x
  | None => Raise (PyExn "IndexError" "list index out of range")
  end.

(** The [finally] blocks of the source delete their locals one by one.
    [del x] of a local that the [try] block did not get to bind raises
    [UnboundLocalError], which then replaces the error of the [try] block.
    [bound] lists the locals bound when the [try] block was left. *)
Fixpoint del_locals (vars bound : list string) : option pyexn :=
  match vars with
  | [] => None
  | v :: vs =>
      if decide (v ∈ bound) then del_locals vs bound
      else Some (UnboundLocalError v)
  end.

Definition try_finally {A : Type} (body : outcome A * list string)
  (dels : list string) : outcome A :=
  match del_locals dels body.2 with
  | Some e => Raise e
  | None => body.1
  end.

(** The [try] block of [logged_api_call] (source lines 132-139). *)
Definition apifunc_owner_try (this_frame : frame) : outcome string * list string :=
  let bound := ["this_frame"] in
  match getattr_f_back (Some this_frame) with
  | Raise e => (Raise e, bound)
  | Return apifunc_frame =>
      let bound := "apifunc_frame" :: bound in
      (inspect_getframeinfo_function apifunc_frame, bound)
  end.

(** The [try]/[finally] of [logged_api_call] (source lines 132-144): the
    name of the code that applies the decorator. *)
Definition apifunc_owner_of (this_frame : frame) : outcome string :=
  try_finally (apifunc_owner_try this_frame) ["this_frame"; "apifunc_frame"].

(** The [try] block of [log_api_call] (source lines 181-190). *)
Definition apicaller_module_name_try (this_frame : frame)
  : outcome string * list string :=
  let bound := ["this_frame"] in
  match getattr_f_back (Some this_frame) with
  | Raise e => (Raise e, bound)
  | Return apifunc_frame =>
      let bound := "apifunc_frame" :: bound in
      match getattr_f_back apifunc_frame with
      | Raise e => (Raise e, bound)
      | Return apicaller_frame =>
          let bound := "apicaller_frame" :: bound in
          let apicaller_module := inspect_getmodule_frame apicaller_frame in
          let bound := "apicaller_module" :: bound in
          (getattr_name apicaller_module, bound)
      end
  end.

(** The [try]/[finally] of [log_api_call] (source lines 181-196): the name
    of the module of the caller of the decorated function. *)
Definition apicaller_module_name_of (this_frame : frame) : outcome string :=
  try_finally (apicaller_module_name_try this_frame)
    ["this_frame"; "apifunc_frame"; "apicaller_frame"; "apicaller_module"].

(** The error of [logged_api_call] (source lines 128-130). *)
Definition decorator_TypeError : pyexn :=
  PyExn "TypeError"
    ("The @logged_api_call decorator must be used on a " +:+
     "function or method (and not on top of the @property " +:+
     "decorator)").

(** The top-level package name the wrapper compares with (source line 199). *)
Definition package_name : string := "zhmcclient".

(** A module of the package: the package itself or a dotted name below
    it. *)
Definition in_package (nm : string) : Prop :=
  nm = package_name ∨ ∃ rest, nm = package_name +:+ "." +:+ rest.

(** The display name of a function called [name] that is defined in the
    scope [owner]. *)
Definition display_name (owner name : string) : string :=
  if decide (owner = "<module>") then name +:+ "()"
  else owner +:+ "." +:+ name +:+ "()".


(** ** The decorator *)

Section Decorator.

(** Python values passed to and returned by the decorated functions, with
    their [repr]; [API_LOGGER_NAME] is imported from [._constants]. *)
Context {value : Type} (repr : value → string) (API_LOGGER_NAME : string).

(** What calling a Python callable with [*args] and [**kwargs] does: it may
    use and change the logging state, and returns or raises. *)
Definition pyfunc : Type :=
  value → value → logging_state → outcome value * logging_state.

(** An object the decorator can be applied to.  [is_function] is what
    [inspect.isfunction] answers, [defining_module] what [inspect.getmodule]
    answers, [obj_name] the [__name__] attribute, [obj_call] what calling the
    object does. *)
Record pyobject := PyObject {
  is_function : bool;
  defining_module : option pymodule;
  obj_name : string;
  obj_call : pyfunc
}.

(** What the wrapper does that can be observed from outside: records handed
    to the logger with [logger.debug], and invocations of the wrapped
    function with their result. *)
Inductive event :=
| LogDebug (logger : string) (msg : string)
| Invoke (args kwargs : value) (res : outcome value).

(** Computations that thread the logging state, may raise, and leave a trace
    of events. *)
Definition M (A : Type) : Type :=
  logging_state → outcome A * logging_state * list event.

#[local] Instance M_ret : MRet M := λ A a st, (Return a, st, []).

#[local] Instance M_bind : MBind M := λ A B k m st,
  match m st with
  | (Return a, st', tr) =>
      let '(r, st'', tr') := k a st' in (r, st'', tr ++ tr')
  | (Raise e, st', tr) => (Raise e, st', tr)
  end.

Definition raise {A : Type} (e : pyexn) : M A := λ st, (Raise e, st, []).

Definition lift {A : Type} (r : outcome A) : M A := λ st, (r, st, []).

Definition lift_state {A : Type} (f : logging_state → A * logging_state)
  : M A := λ st, let '(a, st') := f st in (Return a, st', []).

(** [logger.debug(msg % args)]. *)
Definition debug (logger msg : string) : M unit :=
  λ st, (Return (), Logger_debug logger msg st, [LogDebug logger msg]).

(** The call of [func] with the positional and keyword arguments. *)
Definition invoke (func : pyobject) (args kwargs : value) : M value :=
  λ st, let '(r, st') := obj_call func args kwargs st in
        (r, st', [Invoke args kwargs r]).

Definition when (b : bool) (m : M unit) : M unit :=
  if b then m else mret ().

(** ["%.<prec>r" % obj]: the [repr] of the object, cut after [prec]
    characters. *)
Definition format_r (prec : nat) (obj : value) : string :=
  str_take prec (repr obj).

(** ["==> %s, args: %.500r, kwargs: %.500r" % (apifunc_str, args, kwargs)] *)
Definition entry_message (apifunc_str : string) (args kwargs : value) : string :=
  "==> " +:+ apifunc_str +:+ ", args: " +:+ format_r 500 args
  +:+ ", kwargs: " +:+ format_r 500 kwargs.

(** ["<== %s, result: %.1000r" % (apifunc_str, result)] *)
Definition exit_message (apifunc_str : string) (result : value) : string :=
  "<== " +:+ apifunc_str +:+ ", result: " +:+ format_r 1000 result.

(** The variables of [logged_api_call] that [log_api_call] refers to. *)
Record closure := Closure { apifunc_str : string; logger_of : string }.

(** [log_api_call] (source lines 158-207), running in frame [this_frame]. *)
Definition log_api_call (env : closure) (this_frame : frame)
  (func : pyobject) (args kwargs : value) : M value :=
  apicaller_module_name ← lift (apicaller_module_name_of this_frame);
  top ← lift (getitem (split "." apicaller_module_name) 0);
  let log_it := bool_decide (top ≠ package_name) in
  when log_it
    (debug (logger_of env) (entry_message (apifunc_str env) args kwargs));;
  result ← invoke func args kwargs;
  when log_it
    (debug (logger_of env) (exit_message (apifunc_str env) result));;
  mret result.

(** The function [decorate(func, caller)] of the [decorator] package returns:
    a function with the signature of [func] that calls
    [caller(func, *args, **kwargs)]. *)
Record decorated := Decorated { wrapped : pyobject; caller_env : closure }.

Definition decorate (func : pyobject) (env : closure) : decorated :=
  Decorated func env.

(** Calling a decorated function from the frame [caller] ([None] when no
    Python code is the caller): the call runs in a frame of its own, and
    that frame calls [log_api_call], which runs in a further frame. *)
Definition call_decorated (d : decorated) (caller : option frame)
  (args kwargs : value) : M value :=
  let apifunc_frame := Frame (obj_name (wrapped d)) None caller in
  let this_frame :=
    Frame "log_api_call" (Some (PyModule (Some "zhmcclient._logging")))
          (Some apifunc_frame) in
  log_api_call (caller_env d) this_frame (wrapped d) args kwargs.

(** [logged_api_call] (source lines 96-209), running in frame [this_frame]. *)
Definition logged_api_call (func : pyobject) (this_frame : frame)
  : M decorated :=
  let module := defining_module func in
  if negb (is_function func) || negb (hasattr_name module) then
    raise decorator_TypeError
  else
    apifunc_owner ← lift (apifunc_owner_of this_frame);
    let apifunc_str :=
      if decide (apifunc_owner = "<module>") then obj_name func +:+ "()"
      else apifunc_owner +:+ "." +:+ obj_name func +:+ "()" in
    logger ← lift_state (get_logger API_LOGGER_NAME);
    mret (decorate func (Closure apifunc_str logger)).

(** What calling the decorated function [d] from the frame [lib_frame] does,
    as the body of another function: an API function that is implemented by
    a call of another API function. *)
Definition delegating (d : decorated) (lib_frame : frame) : pyfunc :=
  λ args kwargs st, (call_decorated d (Some lib_frame) args kwargs st).1.

(** The invocations of the wrapped function in a trace. *)
Definition invocations (tr : list event)
  : list (value * value * outcome value) :=
  omap (λ ev, match ev with
              | Invoke args kwargs res => Some (args, kwargs, res)
              | LogDebug _ _ => None
              end) tr.

(** The records handed to the logger in a trace. *)
Definition log_records (tr : list event) : list (string * string) :=
  omap (λ ev, match ev with
              | LogDebug logger msg => Some (logger, msg)
              | Invoke _ _ _ => None
              end) tr.

(** Every run of the wrapper has one of three shapes. *)
Inductive wrapper_run (env : closure) (this_frame : frame) (func : pyobject)
  (args kwargs : value) (st : logging_state)
  : outcome value * logging_state * list event → Prop :=
| run_failed e :
    apicaller_module_name_of this_frame = Raise e →
    wrapper_run env this_frame func args kwargs st (Raise e, st, [])
| run_internal nm res st2 :
    apicaller_module_name_of this_frame = Return nm →
    first_component nm = package_name →
    obj_call func args kwargs st = (res, st2) →
    wrapper_run env this_frame func args kwargs st
      (res, st2, [Invoke args kwargs res])
| run_external_return nm result st2 :
    apicaller_module_name_of this_frame = Return nm →
    first_component nm ≠ package_name →
    obj_call func args kwargs
      (Logger_debug (logger_of env)
         (entry_message (apifunc_str env) args kwargs) st)
    = (Return result, st2) →
    wrapper_run env this_frame func args kwargs st
      (Return result,
       Logger_debug (logger_of env)
         (exit_message (apifunc_str env) result) st2,
       [LogDebug (logger_of env)
          (entry_message (apifunc_str env) args kwargs);
        Invoke args kwargs (Return result);
        LogDebug (logger_of env)
          (exit_message (apifunc_str env) result)])
| run_external_raise nm e st2 :
    apicaller_module_name_of this_frame = Return nm →
    first_component nm ≠ package_name →
    obj_call func args kwargs
      (Logger_debug (logger_of env)
         (entry_message (apifunc_str env) args kwargs) st)
    = (Raise e, st2) →
    wrapper_run env this_frame func args kwargs st
      (Raise e, st2,
       [LogDebug (logger_of env)
          (entry_message (apifunc_str env) args kwargs);
        Invoke args kwargs (Raise e)]).

End Decorator.

(** ** The decorator at work

    A method [list] of a class [CpcManager] in the module [zhmcclient._cpc]
    is decorated and then called from three places: a script of a user of
    the library, another module of the library, and the interactive prompt.
    Python values are written as the text of their [repr]. *)

Definition text_repr (v : string) : string := v.

Definition API_LOGGER_NAME : string := "zhmcclient.api".

Definition cpc_module : pymodule := PyModule (Some "zhmcclient._cpc").

(** [CpcManager.list], which returns the empty list. *)
Definition list_cpcs : @pyobject string :=
  PyObject true (Some cpc_module) "list" (λ args kwargs st, (Return "[]", st)).

(** A method that fails. *)
Definition failing_method : @pyobject string :=
  PyObject true (Some cpc_module) "delete"
    (λ args kwargs st, (Raise (PyExn "HTTPError" "404,1: Not found"), st)).

(** A function of which [inspect.getmodule] finds no module (its
    [__module__] names a module that is not loaded). *)
Definition orphan_function : @pyobject string :=
  PyObject true None "helper" (λ args kwargs st, (Return "None", st)).

(** A property object: not a function. *)
Definition a_property : @pyobject string :=
  PyObject false None "name"
    (λ args kwargs st,
       (Raise (PyExn "TypeError" "'property' object is not callable"), st)).

(** The frames when [logged_api_call] is applied in the body of the class:
    module top level, class body, decorator. *)
Definition cpc_toplevel_frame : frame := Frame "<module>" (Some cpc_module) None.
Definition class_body_frame : frame :=
  Frame "CpcManager" (Some cpc_module) (Some cpc_toplevel_frame).
Definition decorator_frame : frame :=
  Frame "logged_api_call" (Some (PyModule (Some "zhmcclient._logging")))
        (Some class_body_frame).
Definition toplevel_decorator_frame : frame :=
  Frame "logged_api_call" (Some (PyModule (Some "zhmcclient._logging")))
        (Some cpc_toplevel_frame).

(** The callers. *)
Definition script_frame : frame :=
  Frame "<module>" (Some (PyModule (Some "__main__"))) None.
Definition library_frame : frame :=
  Frame "find" (Some (PyModule (Some "zhmcclient._manager"))) (Some script_frame).
Definition prompt_frame : frame := Frame "<module>" None None.
Definition mock_frame : frame :=
  Frame "get" (Some (PyModule (Some "zhmcclient_mock._urihandler")))
        (Some script_frame).

(** A state in which a consumer has attached a handler to the root logger. *)
Definition root_listening : logging_state :=
  set_logger "" (Logger [Handler 5 StreamHandler NOTSET] WARNING true false)
    logging_initial.

(** The state of logging after the decoration: [zhmcclient.api] has its null
    handler.  In [listening] a consumer has attached a handler of its own
    and set the level of the logger to [DEBUG]. *)
Definition decorated_state : logging_state :=
  (get_logger API_LOGGER_NAME logging_initial).2.

Definition listening : logging_state :=
  set_logger API_LOGGER_NAME
    (Logger [Handler 0 NullHandler NOTSET; Handler 7 StreamHandler NOTSET]
            DEBUG true false)
    decorated_state.

Definition decorated_list : @decorated string :=
  Decorated list_cpcs (Closure "CpcManager.list()" API_LOGGER_NAME).

Definition decorated_delete : @decorated string :=
  Decorated failing_method (Closure "CpcManager.delete()" API_LOGGER_NAME).

(** The frame in which [log_api_call] runs when the decorated function
    [name] is called from [caller]. *)
Definition wrapper_frame (name : string) (caller : option frame) : frame :=
  Frame "log_api_call" (Some (PyModule (Some "zhmcclient._logging")))
        (Some (Frame name None caller)).

(** * Part II: properties *)

(** ** Strings *)

Lemma split_head s : head (split "." s) = Some (first_component s).
Proof.
  induction s as [|c s IH]; simpl; [done|].
  destruct (Ascii.eqb c "."); [done|].
  destruct (split "." s) as [|w ws]; simpl in *; congruence.
Qed.

Lemma getitem_split_0 s : getitem (split "." s) 0 = Return (first_component s).
Proof.
  unfold getitem. rewrite <- head_lookup, split_head. done.
Qed.

Lemma str_take_length n s :
  String.length (str_take n s) = Nat.min n (String.length s).
Proof.
  revert s; induction n as [|n IH]; intros [|c s]; simpl; auto.
Qed.




(** ** The logging model *)

Lemma the_logger_set_eq name lg st : the_logger (set_logger name lg st) name = lg.
Proof. unfold the_logger, set_logger; simpl. by rewrite lookup_insert_eq. Qed.

Lemma the_logger_set_ne name n lg st :
  name ≠ n → the_logger (set_logger name lg st) n = the_logger st n.
Proof.
  intros Hne. unfold the_logger, set_logger; simpl.
  by rewrite lookup_insert_ne.
Qed.

Lemma getLogger_handle name st : (getLogger name st).1 = name.
Proof. unfold getLogger. by destruct (loggerDict st !! name). Qed.

Lemma getLogger_the_logger name st n :
  the_logger (getLogger name st).2 n = the_logger st n.
Proof.
  unfold getLogger. destruct (loggerDict st !! name) eqn:E; simpl; [done|].
  destruct (decide (name = n)) as [->|Hne].
  - rewrite the_logger_set_eq. unfold the_logger. by rewrite E.
  - by apply the_logger_set_ne.
Qed.

Lemma getLogger_registered name st :
  is_Some (loggerDict (getLogger name st).2 !! name).
Proof.
  unfold getLogger. destruct (loggerDict st !! name) eqn:E; simpl.
  - rewrite E. eauto.
  - rewrite lookup_insert_eq. eauto.
Qed.

(** What [get_logger] does to the logger it is asked for. *)
Lemma get_logger_handlers name st :
  handlers (the_logger (get_logger name st).2 name) =
  if decide (handlers (the_logger st name) = [])
  then [Handler (next_id (getLogger name st).2) NullHandler NOTSET]
  else handlers (the_logger st name).
Proof.
  unfold get_logger.
  destruct (getLogger name st) as [lg st1] eqn:E.
  assert (lg = name) as -> by (by rewrite <- (getLogger_handle name st), E).
  assert (∀ n, the_logger st1 n = the_logger st n) as Hsame.
  { intros n. by rewrite <- (getLogger_the_logger name st n), E. }
  rewrite Hsame. simpl.
  destruct (decide (handlers (the_logger st name) = [])) as [Hnil|Hne]; simpl;
    [|by rewrite Hsame].
  unfold addHandler, NullHandler_new.
  set (st2 := LoggingState _ _ _ _).
  assert (the_logger st2 name = the_logger st name) as Hst2
      by (unfold the_logger; simpl; apply Hsame).
  rewrite Hst2, Hnil.
  destruct (decide _) as [Hin|_]; [by apply elem_of_nil in Hin|].
  by rewrite the_logger_set_eq.
Qed.

Lemma get_logger_handle name st : (get_logger name st).1 = name.
Proof.
  unfold get_logger.
  pose proof (getLogger_handle name st) as H.
  destruct (getLogger name st) as [lg st1]; simpl in H; subst lg.
  by destruct (decide _).
Qed.

Lemma getLogger_next_id name st : next_id (getLogger name st).2 = next_id st.
Proof. unfold getLogger. by destruct (loggerDict st !! name). Qed.

Lemma getLogger_emitted name st : emitted (getLogger name st).2 = emitted st.
Proof. unfold getLogger. by destruct (loggerDict st !! name). Qed.

Lemma addHandler_emitted name h st : emitted (addHandler name h st) = emitted st.
Proof. unfold addHandler. by destruct (decide _). Qed.

Lemma addHandler_other name h st n :
  n ≠ name → the_logger (addHandler name h st) n = the_logger st n.
Proof.
  intros Hne. unfold addHandler. destruct (decide _); [done|].
  by apply the_logger_set_ne.
Qed.

Lemma addHandler_registered name h st n :
  is_Some (loggerDict st !! n) → is_Some (loggerDict (addHandler name h st) !! n).
Proof.
  intros Hn. unfold addHandler. destruct (decide _); [done|]. simpl.
  destruct (decide (name = n)) as [->|Hne].
  - rewrite lookup_insert_eq. eauto.
  - by rewrite lookup_insert_ne.
Qed.

Lemma get_logger_registered name st :
  is_Some (loggerDict (get_logger name st).2 !! name).
Proof.
  unfold get_logger.
  pose proof (getLogger_registered name st) as Hreg.
  pose proof (getLogger_handle name st) as Hh.
  destruct (getLogger name st) as [lg st1]; simpl in *; subst lg.
  destruct (decide _); simpl; [|done].
  by apply addHandler_registered.
Qed.

Lemma get_logger_emitted name st : emitted (get_logger name st).2 = emitted st.
Proof.
  unfold get_logger.
  pose proof (getLogger_emitted name st) as He.
  destruct (getLogger name st) as [lg st1]; simpl in *.
  destruct (decide _); simpl; [|done].
  by rewrite addHandler_emitted.
Qed.

Lemma get_logger_other name st n :
  n ≠ name → the_logger (get_logger name st).2 n = the_logger st n.
Proof.
  intros Hne. unfold get_logger.
  pose proof (getLogger_the_logger name st n) as Hsame.
  pose proof (getLogger_handle name st) as Hh.
  destruct (getLogger name st) as [lg st1]; simpl in *; subst lg.
  destruct (decide _); simpl; [|done].
  by rewrite addHandler_other.
Qed.

(** A second request finds the handler of the first and changes nothing. *)
Lemma get_logger_twice name st :
  get_logger name (get_logger name st).2 = (name, (get_logger name st).2).
Proof.
  pose proof (get_logger_handlers name st) as Hh.
  pose proof (get_logger_registered name st) as [lg Hreg].
  set (st' := (get_logger name st).2) in *.
  unfold get_logger at 1. unfold getLogger. rewrite Hreg.
  destruct (decide (handlers (the_logger st' name) = [])) as [Hnil|]; [|done].
  rewrite Hnil in Hh. by destruct (decide _) in Hh.
Qed.

Lemma get_logger_again name st k :
  Nat.iter k (λ s, (get_logger name s).2) (get_logger name st).2
  = (get_logger name st).2.
Proof.
  induction k as [|k IH]; simpl; [done|].
  rewrite IH. by rewrite get_logger_twice.
Qed.

Lemma get_logger_silent name st : silent st → silent (get_logger name st).2.
Proof.
  intros Hs n h Hin.
  destruct (decide (n = name)) as [->|Hne].
  - rewrite get_logger_handlers in Hin.
    destruct (decide _); [|by eapply Hs].
    by apply list_elem_of_singleton in Hin as ->.
  - rewrite get_logger_other in Hin by done. by eapply Hs.
Qed.

Lemma handle_all_null hs lvl msg :
  (∀ h, h ∈ hs → h_kind h = NullHandler) → handle_all hs lvl msg = [].
Proof.
  induction hs as [|h hs IH]; intros Hall; simpl; [done|].
  rewrite IH by (intros; apply Hall; by right).
  unfold Handler_handle. rewrite (Hall h) by left.
  by destruct (decide _).
Qed.

Lemma callHandlers_silent st chain lvl msg :
  silent st → (callHandlers st chain lvl msg).2 = [].
Proof.
  intros Hs. induction chain as [|c rest IH]; simpl; [done|].
  rewrite handle_all_null by (intros; by eapply Hs).
  destruct (propagate _); [|done].
  destruct (callHandlers st rest lvl msg) as [found out]; simpl in *.
  by subst out.
Qed.

Lemma callHandlers_found st c rest lvl msg :
  length (handlers (the_logger st c)) ≤ (callHandlers st (c :: rest) lvl msg).1.
Proof.
  simpl. destruct (propagate _); [|done].
  destruct (callHandlers st rest lvl msg); simpl. lia.
Qed.

Lemma logger_chain_head name : ∃ rest, logger_chain name = name :: rest.
Proof.
  unfold logger_chain. destruct (decide (name = "")) as [->|]; eauto.
Qed.

(** A logger that has a handler, in a state where no consumer attached one,
    writes nothing, whatever the level of the record. *)
Lemma Logger_log_silent lvl name msg st :
  silent st → handlers (the_logger st name) ≠ [] →
  emitted (Logger_log lvl name msg st) = emitted st.
Proof.
  intros Hs Hne. unfold Logger_log.
  destruct (isEnabledFor st name lvl); [|done].
  destruct (disabled _); [done|].
  destruct (logger_chain_head name) as [rest ->].
  pose proof (callHandlers_silent st (name :: rest) lvl msg Hs) as Hout.
  pose proof (callHandlers_found st name rest lvl msg) as Hfound.
  destruct (callHandlers st (name :: rest) lvl msg) as [found out].
  simpl in *. subst out.
  destruct (decide (found = 0)) as [->|_]; simpl; [|by rewrite app_nil_r].
  destruct (handlers (the_logger st name)); [done|simpl in *; lia].
Qed.

(** Without [get_logger], a warning sent to a logger nobody configured is
    written to standard error by the last-resort handler; with it, nothing
    is written. *)
Example getLogger_warns :
  emitted (Logger_log WARNING "zhmcclient.hmc" "timeout"
             (getLogger "zhmcclient.hmc" logging_initial).2)
  = [(SinkStderr, "timeout")].
Proof. reflexivity. Qed.

Example get_logger_quiet :
  emitted (Logger_log WARNING "zhmcclient.hmc" "timeout"
             (get_logger "zhmcclient.hmc" logging_initial).2)
  = [].
Proof. reflexivity. Qed.

(** C7. For every logger name, [get_logger] returns the process-wide logger
    of that name (its handle, registered in the dictionary); it attaches a
    null handler exactly when the logger has no handlers, and leaves every
    other logger alone; when no consumer has attached a handler, a record of
    any level sent to the returned logger writes nothing; and a repeated
    request with the same name changes nothing, so no second null handler is
    attached. *)
Theorem get_logger_null_handler_once (name : string) (st : logging_state) :
  (get_logger name st).1 = name
  ∧ is_Some (loggerDict (get_logger name st).2 !! name)
  ∧ handlers (the_logger (get_logger name st).2 name) =
      (if decide (handlers (the_logger st name) = [])
       then [Handler (next_id st) NullHandler NOTSET]
       else handlers (the_logger st name))
  ∧ (∀ n, n ≠ name → the_logger (get_logger name st).2 n = the_logger st n)
  ∧ (silent st → ∀ lvl msg,
       emitted (Logger_log lvl (get_logger name st).1 msg (get_logger name st).2)
       = emitted st)
  ∧ (∀ k, Nat.iter k (λ s, (get_logger name s).2) (get_logger name st).2
          = (get_logger name st).2).
Proof.
  split_and!.
  - apply get_logger_handle.
  - apply get_logger_registered.
  - rewrite get_logger_handlers. by rewrite getLogger_next_id.
  - intros n Hne. by apply get_logger_other.
  - intros Hs lvl msg. rewrite get_logger_handle.
    rewrite Logger_log_silent.
    + apply get_logger_emitted.
    + by apply get_logger_silent.
    + rewrite get_logger_handlers. by destruct (decide _).
  - apply get_logger_again.
Qed.

Lemma get_logger_null_handler_once_witness :
  silent logging_initial
  ∧ emitted (Logger_log ERROR "zhmcclient.api" "failure"
               (get_logger "zhmcclient.api" logging_initial).2) = [].
Proof.
  assert (silent logging_initial) as Hs.
  { intros n h Hin. unfold the_logger in Hin; simpl in Hin.
    rewrite lookup_empty in Hin. simpl in Hin. by apply elem_of_nil in Hin. }
  split; [exact Hs|].
  pose proof (get_logger_null_handler_once "zhmcclient.api" logging_initial)
    as (Hname & _ & _ & _ & Hquiet & _).
  rewrite Hname in Hquiet. exact (Hquiet Hs ERROR "failure").
Defined.

(** ** [get_logger] called from several threads *)

Example race_attaches_two :
  handlers
    (the_logger
       (run_schedule "zhmcclient.api" racing_schedule
          ([AtGetLogger; AtGetLogger], logging_initial)).2
       "zhmcclient.api")
  = [Handler 0 NullHandler NOTSET; Handler 1 NullHandler NOTSET].
Proof. reflexivity. Qed.

(** Against C10 as stated: two first-time calls that interleave leave two
    null handlers on the logger. *)
Lemma concurrent_calls_duplicate :
  ¬ (length
       (handlers
          (the_logger
             (run_schedule "zhmcclient.api" racing_schedule
                ([AtGetLogger; AtGetLogger], logging_initial)).2
             "zhmcclient.api"))
     ≤ 1).
Proof. vm_compute. lia. Qed.

(** A thread that runs alone from call to return does what [get_logger]
    does. *)
Lemma thread_alone name pool st i :
  pool !! i = Some AtGetLogger →
  run_schedule name (replicate 4 i) (pool, st)
  = (<[i := Returned name]> pool, (get_logger name st).2).
Proof.
  intros Hi. unfold run_schedule, get_logger. simpl.
  pose proof (lookup_lt_Some _ _ _ Hi) as Hlt.
  pose proof (getLogger_handle name st) as Hh.
  unfold pool_step at 4. simpl. rewrite Hi. simpl.
  destruct (getLogger name st) as [lg st1]; simpl in Hh; subst lg.
  unfold pool_step at 3. simpl. rewrite list_lookup_insert_eq by done. simpl.
  destruct (decide (handlers (the_logger st1 name) = [])) as [Hnil|Hne].
  - rewrite list_insert_insert_eq.
    unfold pool_step at 2. simpl.
    rewrite list_lookup_insert_eq by done. simpl.
    rewrite list_insert_insert_eq.
    unfold pool_step. simpl.
    rewrite list_lookup_insert_eq by done. simpl.
    by rewrite list_insert_insert_eq.
  - rewrite list_insert_insert_eq.
    unfold pool_step at 2. simpl.
    rewrite list_lookup_insert_eq by done. simpl.
    rewrite list_insert_insert_eq.
    unfold pool_step. simpl.
    rewrite list_lookup_insert_eq by done. simpl.
    by rewrite list_insert_insert_eq.
Qed.

Lemma run_schedule_app name s1 s2 m :
  run_schedule name (s1 ++ s2) m = run_schedule name s2 (run_schedule name s1 m).
Proof. apply foldl_app. Qed.

(** Threads that run one after the other do what as many calls of
    [get_logger] in a row do. *)
Lemma run_one_by_one name order pool st :
  NoDup order →
  (∀ i, i ∈ order → pool !! i = Some AtGetLogger) →
  (run_schedule name (one_by_one order) (pool, st)).2
  = Nat.iter (length order) (λ s, (get_logger name s).2) st.
Proof.
  intros Hnd. revert pool st.
  induction Hnd as [|i order Hni Hnd IH]; intros pool st Hpool; [done|].
  change (one_by_one (i :: order)) with (replicate 4 i ++ one_by_one order).
  rewrite run_schedule_app, thread_alone by (apply Hpool; left).
  rewrite IH.
  - simpl length. by rewrite Nat.iter_succ_r.
  - intros j Hj. rewrite list_lookup_insert_ne by (intros ->; done).
    apply Hpool. by right.
Qed.

Lemma pending_insert pool i pc pc' :
  pool !! i = Some pc →
  pending_threads (<[i := pc']> pool) + pending pc
  = pending_threads pool + pending pc'.
Proof.
  revert i. induction pool as [|p pool IH]; intros [|i] Hi; simpl in *;
    simplify_eq.
  - lia.
  - specialize (IH i Hi). lia.
Qed.

Lemma addHandler_length name h st :
  length (handlers (the_logger (addHandler name h st) name))
  ≤ S (length (handlers (the_logger st name))).
Proof.
  unfold addHandler. destruct (decide _); [lia|].
  rewrite the_logger_set_eq. simpl. rewrite length_app. simpl. lia.
Qed.

(** One step of one thread: the logger gains a handler only when the thread
    stops being pending. *)
Lemma thread_step_bound name pc st :
  holds name pc →
  holds name (thread_step name pc st).1
  ∧ length (handlers (the_logger (thread_step name pc st).2 name))
    + pending (thread_step name pc st).1
    ≤ length (handlers (the_logger st name)) + pending pc.
Proof.
  intros Hpc. destruct pc as [|lg|lg|lg h|lg]; simpl in *; subst.
  - pose proof (getLogger_handle name st) as Hh.
    pose proof (getLogger_the_logger name st name) as Hsame.
    destruct (getLogger name st) as [lg st']; simpl in *.
    by rewrite Hsame.
  - destruct (decide _); simpl; split; (done || lia).
  - split; [done|]. unfold the_logger. simpl. lia.
  - split; [done|]. pose proof (addHandler_length name h st). lia.
  - split; [done|lia].
Qed.

Lemma pool_step_bound name pool st i :
  Forall (holds name) pool →
  Forall (holds name) (pool_step name (pool, st) i).1
  ∧ length (handlers (the_logger (pool_step name (pool, st) i).2 name))
    + pending_threads (pool_step name (pool, st) i).1
    ≤ length (handlers (the_logger st name)) + pending_threads pool.
Proof.
  intros Hpool. unfold pool_step. simpl.
  destruct (pool !! i) as [pc|] eqn:Hi; [|done].
  assert (holds name pc) as Hpc by (eapply Forall_lookup_1; eauto).
  pose proof (thread_step_bound name pc st Hpc) as [Hh Hb].
  pose proof (pending_insert pool i pc (thread_step name pc st).1 Hi) as Hsum.
  destruct (thread_step name pc st) as [pc' st']; simpl in *.
  split; [by apply Forall_insert|lia].
Qed.

Lemma run_schedule_bound name schedule pool st :
  Forall (holds name) pool →
  length (handlers (the_logger (run_schedule name schedule (pool, st)).2 name))
  ≤ length (handlers (the_logger st name)) + pending_threads pool.
Proof.
  revert pool st. induction schedule as [|i schedule IH]; intros pool st Hpool.
  - simpl. lia.
  - unfold run_schedule. simpl. fold (run_schedule name schedule).
    pose proof (pool_step_bound name pool st i Hpool) as [Hh Hb].
    destruct (pool_step name (pool, st) i) as [pool' st']; simpl in *.
    specialize (IH pool' st' Hh). unfold run_schedule in IH. lia.
Qed.

Lemma pending_replicate n : pending_threads (replicate n AtGetLogger) = n.
Proof. induction n as [|n IH]; simpl; [done|by rewrite IH]. Qed.

(** C10, as the code has it.  On a logger without handlers, first-time
    calls of [get_logger] from [n] threads that run one after the other, in
    any order, leave exactly one null handler; the test and the attachment
    are separate steps, and under an arbitrary interleaving of the threads
    every call may attach a handler of its own, so that the logger ends with
    at most [n] handlers. *)
Theorem get_logger_threads
  (name : string) (n : nat) (st : logging_state) :
  handlers (the_logger st name) = [] →
  (∀ order, NoDup order → order ≠ [] → (∀ i, i ∈ order → i < n) →
     handlers
       (the_logger
          (run_schedule name (one_by_one order) (replicate n AtGetLogger, st)).2
          name)
     = [Handler (next_id st) NullHandler NOTSET])
  ∧ (∀ schedule,
       length
         (handlers
            (the_logger
               (run_schedule name schedule (replicate n AtGetLogger, st)).2
               name))
       ≤ n).
Proof.
  intros Hnil. split.
  - intros order Hnd Hne Hlt.
    rewrite run_one_by_one; [|done|].
    + destruct order as [|i order]; [done|]. simpl length.
      rewrite Nat.iter_succ_r.
      rewrite get_logger_again, get_logger_handlers, getLogger_next_id.
      by rewrite decide_True.
    + intros i Hi. apply lookup_replicate. split; [done|by apply Hlt].
  - intros schedule.
    pose proof (run_schedule_bound name schedule (replicate n AtGetLogger) st)
      as Hb.
    rewrite Hnil, pending_replicate in Hb. apply Hb.
    apply Forall_replicate. exact I.
Qed.

Lemma get_logger_threads_witness :
  handlers
    (the_logger
       (run_schedule "zhmcclient.api" (one_by_one [1; 0])
          (replicate 2 AtGetLogger, logging_initial)).2
       "zhmcclient.api")
  = [Handler 0 NullHandler NOTSET]
  ∧ length
      (handlers
         (the_logger
            (run_schedule "zhmcclient.api" racing_schedule
               (replicate 2 AtGetLogger, logging_initial)).2
            "zhmcclient.api"))
    ≤ 2.
Proof.
  pose proof (get_logger_threads "zhmcclient.api" 2 logging_initial eq_refl)
    as [Hseq Hany].
  split; [|apply Hany].
  apply Hseq.
  - apply NoDup_cons. split; [|apply NoDup_singleton].
    intros Hin. apply list_elem_of_singleton in Hin. discriminate Hin.
  - discriminate.
  - intros i Hi.
    apply elem_of_cons in Hi as [->|Hi]; [lia|].
    apply list_elem_of_singleton in Hi as ->. lia.
Defined.

(** ** The wrapper [log_api_call] *)

Section DecoratorProperties.

Context {value : Type} (repr : value → string) (API_LOGGER_NAME : string).

#[local] Abbreviation pyobject := (@pyobject value).
#[local] Abbreviation event := (@event value).

(** The wrapper reads the module two frames up: the frame of the decorated
    function is [this_frame.f_back], the frame of its caller is the
    [f_back] of that. *)
Lemma apicaller_two_frames_up this_frame apifunc_frame :
  f_back this_frame = Some apifunc_frame →
  apicaller_module_name_of this_frame
  = getattr_name (inspect_getmodule_frame (f_back apifunc_frame)).
Proof.
  intros H. unfold apicaller_module_name_of, apicaller_module_name_try.
  simpl. rewrite H. simpl. reflexivity.
Qed.

Lemma apicaller_no_frame this_frame :
  f_back this_frame = None →
  apicaller_module_name_of this_frame
  = Raise (UnboundLocalError "apicaller_frame").
Proof.
  intros H. unfold apicaller_module_name_of, apicaller_module_name_try.
  simpl. rewrite H. simpl. reflexivity.
Qed.

(** The run of the wrapper, case by case. *)
Lemma log_api_call_failed env this_frame func args kwargs st e :
  apicaller_module_name_of this_frame = Raise e →
  log_api_call repr env this_frame func args kwargs st = (Raise e, st, []).
Proof.
  intros H. unfold log_api_call, mbind, M_bind, lift. by rewrite H.
Qed.

Lemma log_api_call_internal env this_frame func args kwargs st nm :
  apicaller_module_name_of this_frame = Return nm →
  first_component nm = package_name →
  log_api_call repr env this_frame func args kwargs st
  = ((obj_call func args kwargs st).1, (obj_call func args kwargs st).2,
     [Invoke args kwargs (obj_call func args kwargs st).1]).
Proof.
  intros H Htop. unfold log_api_call, mbind, M_bind, lift.
  rewrite H, getitem_split_0, Htop.
  rewrite bool_decide_eq_false_2 by (intros Hne; by apply Hne).
  unfold when, invoke, mret, M_ret.
  destruct (obj_call func args kwargs st) as [[v|e] st2]; reflexivity.
Qed.

Lemma log_api_call_external env this_frame func args kwargs st nm :
  apicaller_module_name_of this_frame = Return nm →
  first_component nm ≠ package_name →
  let entry := entry_message repr (apifunc_str env) args kwargs in
  let st1 := Logger_debug (logger_of env) entry st in
  log_api_call repr env this_frame func args kwargs st
  = match obj_call func args kwargs st1 with
    | (Return result, st2) =>
        let exit := exit_message repr (apifunc_str env) result in
        (Return result, Logger_debug (logger_of env) exit st2,
         [LogDebug (logger_of env) entry; Invoke args kwargs (Return result);
          LogDebug (logger_of env) exit])
    | (Raise e, st2) =>
        (Raise e, st2,
         [LogDebug (logger_of env) entry; Invoke args kwargs (Raise e)])
    end.
Proof.
  intros H Htop. unfold log_api_call, mbind, M_bind, lift.
  rewrite H, getitem_split_0.
  rewrite bool_decide_eq_true_2 by done.
  unfold when, invoke, debug, mret, M_ret. simpl.
  destruct (obj_call func args kwargs _) as [[v|e] st2]; reflexivity.
Qed.

Lemma log_api_call_run env this_frame func args kwargs st :
  wrapper_run repr env this_frame func args kwargs st
    (log_api_call repr env this_frame func args kwargs st).
Proof.
  destruct (apicaller_module_name_of this_frame) as [nm|e] eqn:Hnm.
  - destruct (decide (first_component nm = package_name)) as [Htop|Htop].
    + rewrite (log_api_call_internal env this_frame func args kwargs st nm Hnm Htop).
      eapply run_internal; eauto. by destruct (obj_call _ _ _ _).
    + rewrite (log_api_call_external env this_frame func args kwargs st nm Hnm Htop).
      simpl.
      destruct (obj_call _ _ _ _) as [[v|e] st2] eqn:Hcall.
      * eapply run_external_return; eauto.
      * eapply run_external_raise; eauto.
  - rewrite (log_api_call_failed env this_frame func args kwargs st e Hnm).
    by constructor.
Qed.

(** C1. The wrapper looks exactly two frames up: when the frame two
    [f_back] steps above the wrapper's own frame belongs to a module named
    [nm], the wrapper hands records to the logger if and only if the first
    dotted component of [nm] differs from [zhmcclient]; and when the caller
    is inside the package, whatever the state of the logging module, no
    record is handed over and the run is the run of the wrapped function
    alone. *)
Theorem log_iff_caller_outside_package
  (env : closure) (this_frame apifunc_frame apicaller_frame : frame)
  (m : pymodule) (nm : string) (func : pyobject) (args kwargs : value)
  (st : logging_state) :
  f_back this_frame = Some apifunc_frame →
  f_back apifunc_frame = Some apicaller_frame →
  f_module apicaller_frame = Some m →
  module_name m = Some nm →
  let run := log_api_call repr env this_frame func args kwargs st in
  (log_records run.2 ≠ [] ↔ first_component nm ≠ "zhmcclient")
  ∧ (first_component nm = "zhmcclient" →
     log_records run.2 = [] ∧ run.1 = obj_call func args kwargs st).
Proof.
  intros H1 H2 Hm Hnm run.
  assert (apicaller_module_name_of this_frame = Return nm) as Hname.
  { rewrite (apicaller_two_frames_up _ _ H1), H2.
    unfold inspect_getmodule_frame, getattr_name. by rewrite Hm, Hnm. }
  subst run.
  destruct (log_api_call_run env this_frame func args kwargs st)
    as [e He|nm' res st2 Hn Htop Hcall|nm' v st2 Hn Htop Hcall
        |nm' e st2 Hn Htop Hcall];
    rewrite Hname in *; simplify_eq; simpl; fold package_name.
  - rewrite Htop. split; [split; intros; by exfalso|].
    intros _. by rewrite Hcall.
  - split; [by split|]. by intros.
  - split; [by split|]. by intros.
Qed.

(** Membership of an event in one of the short traces of [wrapper_run]. *)
Ltac trace_cases H :=
  repeat (apply elem_of_cons in H as [H|H]); try (by apply elem_of_nil in H);
  simplify_eq.


(** A value the wrapper returns is a value the wrapped function returned
    in that call. *)
Lemma wrapper_value_from_func env this_frame func args kwargs st v :
  (log_api_call repr env this_frame func args kwargs st).1.1 = Return v →
  Invoke args kwargs (Return v)
  ∈ (log_api_call repr env this_frame func args kwargs st).2.
Proof.
  intros Hr.
  destruct (log_api_call_run env this_frame func args kwargs st);
    simpl in *; simplify_eq; set_solver.
Qed.

(** The wrapper invokes the wrapped function at most once, and only with
    the arguments it was given. *)
Lemma wrapper_invokes_at_most_once env this_frame func args kwargs st :
  let tr := (log_api_call repr env this_frame func args kwargs st).2 in
  invocations tr = [] ∨ ∃ res, invocations tr = [(args, kwargs, res)].
Proof.
  destruct (log_api_call_run env this_frame func args kwargs st);
    simpl; eauto.
Qed.

(** C3. When the body of the wrapped function raises an error in a call of
    the wrapper, the wrapper raises that same error; the trace ends with the
    failed invocation, so no exit record is handed to the logger, and the
    state is the one the function left; when logging applies to the call
    (the caller is outside the package), the one record of the trace is the
    entry record, it comes before the invocation, and the function ran in
    the state the entry record produced. *)
Theorem wrapper_propagates_error
  (env : closure) (this_frame : frame) (func : pyobject)
  (args kwargs a k : value) (e : pyexn) (st : logging_state) :
  let run := log_api_call repr env this_frame func args kwargs st in
  let entry := entry_message repr (apifunc_str env) args kwargs in
  Invoke a k (Raise e) ∈ run.2 →
  run.1.1 = Raise e
  ∧ ∃ nm, apicaller_module_name_of this_frame = Return nm
      ∧ if decide (first_component nm = package_name)
        then run.2 = [Invoke args kwargs (Raise e)]
             ∧ run.1 = obj_call func args kwargs st
        else run.2 = [LogDebug (logger_of env) entry;
                      Invoke args kwargs (Raise e)]
             ∧ run.1 = obj_call func args kwargs
                         (Logger_debug (logger_of env) entry st).
Proof.
  intros run entry Hin. subst run entry.
  destruct (log_api_call_run env this_frame func args kwargs st)
    as [e' He|nm res st2 Hn Htop Hcall|nm v' st2 Hn Htop Hcall
        |nm e' st2 Hn Htop Hcall];
    simpl in *; trace_cases Hin.
  - split; [done|]. exists nm. split; [done|].
    rewrite decide_True by done. by rewrite Hcall.
  - split; [done|]. exists nm. split; [done|].
    rewrite decide_False by done. by rewrite Hcall.
Qed.


(** When [inspect.getmodule] finds no module for the frame of the caller,
    or there is no such frame, the wrapper fails on [None.__name__] before
    it invokes the wrapped function. *)
Lemma wrapper_fails_without_caller_module
  (d : decorated) (caller : option frame) (args kwargs : value)
  (st : logging_state) :
  inspect_getmodule_frame caller = None →
  call_decorated repr d caller args kwargs st
  = (Raise (AttributeError_None "__name__"), st, []).
Proof.
  intros Hnone. unfold call_decorated.
  apply log_api_call_failed.
  erewrite apicaller_two_frames_up by reflexivity.
  simpl. by rewrite Hnone.
Qed.

(** The records of a run: the entry record, and the exit record of the
    result the wrapped function returned. *)
Lemma wrapper_log_records env this_frame func args kwargs st lg msg :
  (lg, msg) ∈ log_records (log_api_call repr env this_frame func args kwargs st).2 →
  lg = logger_of env
  ∧ (msg = entry_message repr (apifunc_str env) args kwargs
     ∨ ∃ result,
         Invoke args kwargs (Return result)
         ∈ (log_api_call repr env this_frame func args kwargs st).2
         ∧ msg = exit_message repr (apifunc_str env) result).
Proof.
  intros Hin.
  destruct (log_api_call_run env this_frame func args kwargs st);
    simpl in *; trace_cases Hin; split; eauto.
  right. eexists. split; [|done]. set_solver.
Qed.

(** ** The decorator [logged_api_call] *)

Lemma apifunc_owner_one_frame_up this_frame :
  apifunc_owner_of this_frame = inspect_getframeinfo_function (f_back this_frame).
Proof. reflexivity. Qed.

Lemma logged_api_call_rejects (func : pyobject) this_frame st :
  is_function func = false ∨ hasattr_name (defining_module func) = false →
  logged_api_call API_LOGGER_NAME func this_frame st
  = (Raise decorator_TypeError, st, []).
Proof.
  intros H. unfold logged_api_call.
  destruct (is_function func), (hasattr_name (defining_module func));
    simpl; try reflexivity.
  by destruct H.
Qed.

Lemma logged_api_call_accepts (func : pyobject) this_frame owner_frame st :
  is_function func = true →
  hasattr_name (defining_module func) = true →
  f_back this_frame = Some owner_frame →
  logged_api_call API_LOGGER_NAME func this_frame st
  = (Return (decorate func
               (Closure (display_name (f_code_name owner_frame) (obj_name func))
                        API_LOGGER_NAME)),
     (get_logger API_LOGGER_NAME st).2, []).
Proof.
  intros Hf Hm Hback. unfold logged_api_call. rewrite Hf, Hm. simpl.
  unfold mbind, M_bind, lift, lift_state, mret, M_ret.
  rewrite apifunc_owner_one_frame_up, Hback. simpl.
  pose proof (get_logger_handle API_LOGGER_NAME st) as Hh.
  destruct (get_logger API_LOGGER_NAME st) as [lg st']; simpl in *.
  by subst lg.
Qed.

Lemma logged_api_call_no_owner_frame (func : pyobject) this_frame st :
  is_function func = true →
  hasattr_name (defining_module func) = true →
  f_back this_frame = None →
  logged_api_call API_LOGGER_NAME func this_frame st
  = (Raise (PyExn "TypeError" "None is not a frame or traceback object"),
     st, []).
Proof.
  intros Hf Hm Hback. unfold logged_api_call. rewrite Hf, Hm. simpl.
  unfold mbind, M_bind, lift.
  by rewrite apifunc_owner_one_frame_up, Hback.
Qed.

(** The three ways a decoration ends. *)
Lemma logged_api_call_cases (func : pyobject) this_frame st :
  let run := logged_api_call API_LOGGER_NAME func this_frame st in
  ((is_function func = false ∨ hasattr_name (defining_module func) = false)
   ∧ run = (Raise decorator_TypeError, st, []))
  ∨ (∃ owner_frame,
       f_back this_frame = Some owner_frame
       ∧ run = (Return (decorate func
                          (Closure (display_name (f_code_name owner_frame)
                                                 (obj_name func))
                                   API_LOGGER_NAME)),
                (get_logger API_LOGGER_NAME st).2, []))
  ∨ (f_back this_frame = None
     ∧ run = (Raise (PyExn "TypeError"
                           "None is not a frame or traceback object"),
              st, [])).
Proof.
  intros run. subst run.
  destruct (is_function func) eqn:Hf;
    [destruct (hasattr_name (defining_module func)) eqn:Hm|].
  - destruct (f_back this_frame) as [owner_frame|] eqn:Hback.
    + right. left. exists owner_frame. split; [done|].
      by apply logged_api_call_accepts.
    + right. right. split; [done|].
      by apply logged_api_call_no_owner_frame.
  - left. split; [by right|]. apply logged_api_call_rejects. by right.
  - left. split; [by left|]. apply logged_api_call_rejects. by left.
Qed.

Lemma logged_api_call_TypeError_iff (func : pyobject) this_frame st :
  (logged_api_call API_LOGGER_NAME func this_frame st).1.1
  = Raise decorator_TypeError
  ↔ is_function func = false ∨ hasattr_name (defining_module func) = false.
Proof.
  destruct (logged_api_call_cases func this_frame st)
    as [[Hc Hrun]|[(o & Ho & Hrun)|(Ho & Hrun)]].
  - rewrite Hrun. by split.
  - split; [by rewrite Hrun|]. intros Hc.
    rewrite logged_api_call_rejects in Hrun by done. done.
  - split; [rewrite Hrun; intros [=]|]. intros Hc.
    rewrite logged_api_call_rejects in Hrun by done. done.
Qed.

(** C4, as the code has it.  Applied to a target that is not a plain
    function, the decorator raises its [TypeError] at once: the state is
    untouched and the target is not called.  The decorator raises this error
    exactly when the target is not a function or the module that defines it
    cannot be found with a name; and when the decorator is applied from a
    frame of Python code, it raises no other error. *)
Theorem decorator_error_conditions
  (func : pyobject) (this_frame : frame) (st : logging_state) :
  let run := logged_api_call API_LOGGER_NAME func this_frame st in
  (is_function func = false → run = (Raise decorator_TypeError, st, []))
  ∧ (run.1.1 = Raise decorator_TypeError
     ↔ is_function func = false ∨ hasattr_name (defining_module func) = false)
  ∧ (is_Some (f_back this_frame) →
     ∀ e, run.1.1 = Raise e → e = decorator_TypeError)
  ∧ invocations run.2 = [].
Proof.
  intros run. subst run. split_and!.
  - intros Hf. apply logged_api_call_rejects. by left.
  - apply logged_api_call_TypeError_iff.
  - intros [owner_frame Hback] e.
    destruct (logged_api_call_cases func this_frame st)
      as [[_ ->]|[(o & Ho & ->)|(Ho & ->)]]; simpl; [|done|congruence].
    by intros [= <-].
  - destruct (logged_api_call_cases func this_frame st)
      as [[_ ->]|[(o & Ho & ->)|(Ho & ->)]]; done.
Qed.

(** C9. A plain function whose module [inspect.getmodule] cannot find is
    rejected with the decorator's [TypeError] although it is a function;
    indeed a function is rejected exactly when its module is not found or
    has no name. *)
Theorem function_without_module_rejected
  (func : pyobject) (this_frame : frame) (st : logging_state) :
  is_function func = true →
  let run := logged_api_call API_LOGGER_NAME func this_frame st in
  (defining_module func = None → run = (Raise decorator_TypeError, st, []))
  ∧ (run.1.1 = Raise decorator_TypeError
     ↔ hasattr_name (defining_module func) = false).
Proof.
  intros Hf run. split.
  - intros Hnone. apply logged_api_call_rejects. right. by rewrite Hnone.
  - subst run. rewrite logged_api_call_TypeError_iff.
    split; [|by right]. intros [Hnf|Hm]; [congruence|done].
Qed.

(** C5. The display name is fixed when the decorator is applied: it is
    [name()] when the frame one level up, the one applying the decorator,
    runs the top level of a module, and [Owner.name()] with the name of
    that frame's code otherwise.  It is kept in the decorated function, and
    every record of every later call carries it, whatever the stack and
    state of that call. *)
Theorem display_name_cached
  (func : pyobject) (this_frame : frame) (st st' : logging_state)
  (d : decorated) (tr : list event) :
  logged_api_call API_LOGGER_NAME func this_frame st = (Return d, st', tr) →
  ∃ owner_frame,
    f_back this_frame = Some owner_frame
    ∧ apifunc_str (caller_env d)
      = (if decide (f_code_name owner_frame = "<module>")
         then obj_name func +:+ "()"
         else f_code_name owner_frame +:+ "." +:+ obj_name func +:+ "()")
    ∧ ∀ caller args kwargs st2 lg msg,
        (lg, msg) ∈ log_records (call_decorated repr d caller args kwargs st2).2 →
        msg = entry_message repr
                (display_name (f_code_name owner_frame) (obj_name func))
                args kwargs
        ∨ ∃ result,
            msg = exit_message repr
                    (display_name (f_code_name owner_frame) (obj_name func))
                    result.
Proof.
  intros Hrun.
  destruct (is_function func) eqn:Hf;
    [destruct (hasattr_name (defining_module func)) eqn:Hm|];
    [|rewrite logged_api_call_rejects in Hrun by (by right; rewrite Hm);
      done
     |rewrite logged_api_call_rejects in Hrun by (by left); done].
  destruct (f_back this_frame) as [owner_frame|] eqn:Hback;
    [|by rewrite (logged_api_call_no_owner_frame func this_frame st Hf Hm Hback)
        in Hrun].
  rewrite (logged_api_call_accepts func this_frame owner_frame st Hf Hm Hback)
    in Hrun.
  injection Hrun as <- <- <-.
  exists owner_frame. split_and!; [done..|].
  intros caller args kwargs st2 lg msg Hin.
  unfold call_decorated in Hin.
  apply wrapper_log_records in Hin as (_ & [->|(result & _ & ->)]); eauto.
Qed.

(** ** The text of the records *)




End DecoratorProperties.

(** ** The decorator at work *)

Example decorate_method :
  logged_api_call API_LOGGER_NAME list_cpcs decorator_frame logging_initial
  = (Return decorated_list, decorated_state, []).
Proof. reflexivity. Qed.

Example decorate_global_function :
  (logged_api_call API_LOGGER_NAME list_cpcs toplevel_decorator_frame
     logging_initial).1.1
  = Return (Decorated list_cpcs (Closure "list()" API_LOGGER_NAME)).
Proof. reflexivity. Qed.

Example call_from_script :
  call_decorated text_repr decorated_list (Some script_frame) "()" "{}" listening
  = (Return "[]",
     LoggingState (loggerDict listening) 0 1
       [(SinkHandler 7, "==> CpcManager.list(), args: (), kwargs: {}");
        (SinkHandler 7, "<== CpcManager.list(), result: []")],
     [LogDebug API_LOGGER_NAME "==> CpcManager.list(), args: (), kwargs: {}";
      Invoke "()" "{}" (Return "[]");
      LogDebug API_LOGGER_NAME "<== CpcManager.list(), result: []"]).
Proof. reflexivity. Qed.

Example call_from_library :
  call_decorated text_repr decorated_list (Some library_frame) "()" "{}" listening
  = (Return "[]", listening, [Invoke "()" "{}" (Return "[]")]).
Proof. reflexivity. Qed.

Example call_fails_from_script :
  call_decorated text_repr decorated_delete (Some script_frame) "()" "{}" listening
  = (Raise (PyExn "HTTPError" "404,1: Not found"),
     LoggingState (loggerDict listening) 0 1
       [(SinkHandler 7, "==> CpcManager.delete(), args: (), kwargs: {}")],
     [LogDebug API_LOGGER_NAME "==> CpcManager.delete(), args: (), kwargs: {}";
      Invoke "()" "{}" (Raise (PyExn "HTTPError" "404,1: Not found"))]).
Proof. reflexivity. Qed.

(** ** Instances of the theorems *)

Lemma log_iff_caller_outside_package_witness :
  let run := log_api_call text_repr (caller_env decorated_list)
               (wrapper_frame "list" (Some library_frame)) list_cpcs "()" "{}"
               listening in
  (log_records run.2 ≠ [] ↔ first_component "zhmcclient._manager" ≠ "zhmcclient")
  ∧ (first_component "zhmcclient._manager" = "zhmcclient" →
     log_records run.2 = [] ∧ run.1 = obj_call list_cpcs "()" "{}" listening).
Proof.
  apply (log_iff_caller_outside_package text_repr (caller_env decorated_list)
           (wrapper_frame "list" (Some library_frame))
           (Frame "list" None (Some library_frame)) library_frame
           (PyModule (Some "zhmcclient._manager")) "zhmcclient._manager");
    reflexivity.
Defined.


Lemma wrapper_propagates_error_witness :
  let run := log_api_call text_repr (caller_env decorated_delete)
               (wrapper_frame "delete" (Some script_frame)) failing_method
               "()" "{}" listening in
  let entry := entry_message text_repr
                 (apifunc_str (caller_env decorated_delete)) "()" "{}" in
  let e := PyExn "HTTPError" "404,1: Not found" in
  run.1.1 = Raise e
  ∧ ∃ nm, apicaller_module_name_of (wrapper_frame "delete" (Some script_frame))
          = Return nm
      ∧ if decide (first_component nm = package_name)
        then run.2 = [Invoke "()" "{}" (Raise e)]
             ∧ run.1 = obj_call failing_method "()" "{}" listening
        else run.2 = [LogDebug (logger_of (caller_env decorated_delete)) entry;
                      Invoke "()" "{}" (Raise e)]
             ∧ run.1 = obj_call failing_method "()" "{}"
                         (Logger_debug (logger_of (caller_env decorated_delete))
                            entry listening).
Proof.
  apply (wrapper_propagates_error text_repr (caller_env decorated_delete)
           (wrapper_frame "delete" (Some script_frame)) failing_method
           "()" "{}" "()" "{}" (PyExn "HTTPError" "404,1: Not found") listening).
  vm_compute. apply list_elem_of_further, list_elem_of_here.
Defined.

Lemma decorator_error_conditions_witness :
  logged_api_call API_LOGGER_NAME a_property decorator_frame logging_initial
  = (Raise decorator_TypeError, logging_initial, []).
Proof.
  pose proof (decorator_error_conditions API_LOGGER_NAME a_property
                decorator_frame logging_initial) as (Hnf & _).
  apply Hnf. reflexivity.
Defined.

Lemma function_without_module_rejected_witness :
  logged_api_call API_LOGGER_NAME orphan_function decorator_frame
    logging_initial
  = (Raise decorator_TypeError, logging_initial, []).
Proof.
  pose proof (function_without_module_rejected API_LOGGER_NAME orphan_function
                decorator_frame logging_initial eq_refl) as (Hnone & _).
  apply Hnone. reflexivity.
Defined.

Lemma display_name_cached_witness :
  ∃ owner_frame,
    f_back decorator_frame = Some owner_frame
    ∧ apifunc_str (caller_env decorated_list)
      = (if decide (f_code_name owner_frame = "<module>")
         then obj_name list_cpcs +:+ "()"
         else f_code_name owner_frame +:+ "." +:+ obj_name list_cpcs +:+ "()")
    ∧ ∀ caller args kwargs st2 lg msg,
        (lg, msg)
        ∈ log_records
            (call_decorated text_repr decorated_list caller args kwargs st2).2 →
        msg = entry_message text_repr
                (display_name (f_code_name owner_frame) (obj_name list_cpcs))
                args kwargs
        ∨ ∃ result,
            msg = exit_message text_repr
                    (display_name (f_code_name owner_frame) (obj_name list_cpcs))
                    result.
Proof.
  apply (display_name_cached text_repr API_LOGGER_NAME list_cpcs decorator_frame
           logging_initial decorated_state decorated_list []).
  reflexivity.
Defined.


(** ** Where the code departs from the specification *)

(** Against C4 as stated: the decorator's error is not reserved to targets
    that are not functions.  [orphan_function] is a plain function and is
    rejected. *)
Lemma plain_function_rejected :
  ¬ (∀ e, (logged_api_call API_LOGGER_NAME orphan_function decorator_frame
             logging_initial).1.1 = Raise e →
          is_function orphan_function = false).
Proof.
  intros H. specialize (H decorator_TypeError eq_refl). discriminate H.
Qed.

(** A representation of 501 characters is cut to its first 500 characters,
    and that is all there is in the record. *)
Example format_r_cuts :
  format_r text_repr 500 (str_repeat "a" 501) = str_repeat "a" 500.
Proof. vm_compute. reflexivity. Qed.


(** C8: called from the interactive prompt, where [inspect.getmodule] finds
    no module for the frame of the caller, the decorated [list] fails with
    an [AttributeError] of the wrapper's own and is never invoked, although
    [list] itself returns. *)
Theorem wrapper_fails_at_prompt :
  obj_call list_cpcs "()" "{}" decorated_state = (Return "[]", decorated_state)
  ∧ call_decorated text_repr decorated_list (Some prompt_frame) "()" "{}"
      decorated_state
    = (Raise (PyExn "AttributeError"
                "'NoneType' object has no attribute '__name__'"),
       decorated_state, []).
Proof. split; reflexivity. Qed.

(** * Part III: further properties *)

(** ** What [get_logger] leaves alone *)

(** [get_logger] changes a logger only by appending at most one null
    handler. *)
Lemma get_logger_appends name st n :
  ∃ new,
    (new = [] ∨ ∃ id, new = [Handler id NullHandler NOTSET])
    ∧ the_logger (get_logger name st).2 n
      = Logger (handlers (the_logger st n) ++ new) (level (the_logger st n))
               (propagate (the_logger st n)) (disabled (the_logger st n)).
Proof.
  destruct (decide (n = name)) as [->|Hne].
  - unfold get_logger.
    pose proof (getLogger_handle name st) as Hh.
    pose proof (getLogger_the_logger name st) as Hsame.
    destruct (getLogger name st) as [lg st1]; simpl in *; subst lg.
    rewrite Hsame.
    destruct (decide (handlers (the_logger st name) = [])) as [Hnil|Hnn]; simpl.
    + unfold addHandler, NullHandler_new.
      set (st2 := LoggingState _ _ _ _).
      assert (the_logger st2 name = the_logger st name) as ->
          by (unfold the_logger; simpl; apply Hsame).
      destruct (decide _) as [Hin|_];
        [rewrite Hnil in Hin; by apply elem_of_nil in Hin|].
      rewrite the_logger_set_eq. eexists. split; [right; eauto|done].
    + exists []. split; [by left|]. rewrite Hsame, app_nil_r.
      by destruct (the_logger st name).
  - exists []. split; [by left|]. rewrite get_logger_other by done.
    rewrite app_nil_r. by destruct (the_logger st n).
Qed.

Lemma get_logger_manager_disable name st :
  manager_disable (get_logger name st).2 = manager_disable st.
Proof.
  unfold get_logger, getLogger, addHandler, NullHandler_new.
  destruct (loggerDict st !! name); simpl;
    repeat (destruct (decide _); simpl); done.
Qed.

Lemma first_level_same st st' chain :
  (∀ c, level (the_logger st' c) = level (the_logger st c)) →
  first_level st' chain = first_level st chain.
Proof.
  intros Hl. induction chain as [|c rest IH]; simpl; [done|].
  by rewrite Hl, IH.
Qed.

Lemma get_logger_level name st n :
  level (the_logger (get_logger name st).2 n) = level (the_logger st n).
Proof. by destruct (get_logger_appends name st n) as (new & _ & ->). Qed.

Lemma get_logger_isEnabledFor name st n lvl :
  isEnabledFor (get_logger name st).2 n lvl = isEnabledFor st n lvl.
Proof.
  unfold isEnabledFor, getEffectiveLevel.
  rewrite get_logger_manager_disable.
  rewrite (first_level_same st (get_logger name st).2); [done|].
  intros c. apply get_logger_level.
Qed.

(** X1. [get_logger] cannot turn logging on or off and loses nothing: for
    every logger, the one asked for included, level, propagate flag and
    disabled flag stay as they were, the handlers that were attached stay
    attached in their order, the level set by [logging.disable] and the
    output written so far are unchanged, and so every level is enabled for
    every logger after the call exactly when it was before. *)
Theorem get_logger_keeps_configuration
  (name : string) (st : logging_state) (n : string) :
  level (the_logger (get_logger name st).2 n) = level (the_logger st n)
  ∧ propagate (the_logger (get_logger name st).2 n) = propagate (the_logger st n)
  ∧ disabled (the_logger (get_logger name st).2 n) = disabled (the_logger st n)
  ∧ handlers (the_logger st n) `prefix_of`
      handlers (the_logger (get_logger name st).2 n)
  ∧ manager_disable (get_logger name st).2 = manager_disable st
  ∧ emitted (get_logger name st).2 = emitted st
  ∧ ∀ lvl, isEnabledFor (get_logger name st).2 n lvl = isEnabledFor st n lvl.
Proof.
  destruct (get_logger_appends name st n) as (new & _ & Hlg).
  split_and!; try (by rewrite Hlg).
  - rewrite Hlg. simpl. by exists new.
  - apply get_logger_manager_disable.
  - apply get_logger_emitted.
  - intros lvl. apply get_logger_isEnabledFor.
Qed.

(** ** What a record sent to a logger writes *)

Lemma written_cases lvl name msg st :
  written lvl name msg st
  = if isEnabledFor st name lvl then
      if disabled (the_logger st name) then []
      else (callHandlers st (logger_chain name) lvl msg).2
           ++ (if decide ((callHandlers st (logger_chain name) lvl msg).1 = 0)
               then if decide (WARNING ≤ lvl)%nat then [(SinkStderr, msg)] else []
               else [])
    else [].
Proof.
  unfold written, Logger_log.
  destruct (isEnabledFor st name lvl); [|apply drop_all].
  destruct (disabled _); [apply drop_all|].
  destruct (callHandlers st (logger_chain name) lvl msg) as [found out].
  simpl. apply drop_app_length.
Qed.

Lemma handle_all_sinks hs lvl msg o :
  o ∈ handle_all hs lvl msg → ∃ id, o.1 = SinkHandler id.
Proof.
  induction hs as [|h hs IH]; simpl; [by intros ?%elem_of_nil|].
  intros [Hin|Hin]%elem_of_app; [|by apply IH].
  destruct (decide _); [|by apply elem_of_nil in Hin].
  unfold Handler_handle in Hin. destruct (h_kind h);
    [by apply elem_of_nil in Hin|].
  apply list_elem_of_singleton in Hin as ->. eauto.
Qed.

Lemma callHandlers_sinks st chain lvl msg o :
  o ∈ (callHandlers st chain lvl msg).2 → ∃ id, o.1 = SinkHandler id.
Proof.
  induction chain as [|c rest IH]; simpl; [by intros ?%elem_of_nil|].
  destruct (propagate _).
  - destruct (callHandlers st rest lvl msg) as [found out]; simpl in *.
    intros [Hin|Hin]%elem_of_app; [by eapply handle_all_sinks|by apply IH].
  - simpl. apply handle_all_sinks.
Qed.

(** X2. After [get_logger(name)], in whatever state it was called, a record
    of any level sent to that logger is never written to standard error:
    the last-resort handler of [logging] cannot fire, because the logger has
    a handler. *)
Theorem get_logger_silences_last_resort
  (name : string) (st : logging_state) (lvl : nat) (msg : string)
  (o : sink * string) :
  o ∈ written lvl name msg (get_logger name st).2 → o.1 ≠ SinkStderr.
Proof.
  rewrite written_cases.
  destruct (isEnabledFor _ _ _); [|by intros ?%elem_of_nil].
  destruct (disabled _); [by intros ?%elem_of_nil|].
  destruct (logger_chain_head name) as [rest ->].
  pose proof (callHandlers_found (get_logger name st).2 name rest lvl msg)
    as Hfound.
  pose proof (get_logger_handlers name st) as Hh.
  intros [Hin|Hin]%elem_of_app.
  - apply callHandlers_sinks in Hin as [id ->]. done.
  - destruct (decide ((callHandlers (get_logger name st).2 (name :: rest)
                         lvl msg).1 = 0)) as [H0|_];
      [|by apply elem_of_nil in Hin].
    rewrite H0 in Hfound. rewrite Hh in Hfound.
    destruct (decide (handlers (the_logger st name) = [])) as [_|Hne];
      simpl in Hfound; [lia|].
    destruct (handlers (the_logger st name)); [done|simpl in Hfound; lia].
Qed.

Lemma handle_all_appended hs new lvl msg :
  new = [] ∨ (∃ id, new = [Handler id NullHandler NOTSET]) →
  handle_all (hs ++ new) lvl msg = handle_all hs lvl msg.
Proof.
  intros Hnew.
  assert (handle_all (hs ++ new) lvl msg
          = handle_all hs lvl msg ++ handle_all new lvl msg) as ->
      by apply flat_map_app.
  rewrite (handle_all_null new); [by rewrite app_nil_r|].
  intros h Hin. destruct Hnew as [->|[id ->]]; [by apply elem_of_nil in Hin|].
  by apply list_elem_of_singleton in Hin as ->.
Qed.

Lemma get_logger_callHandlers_out name st chain lvl msg :
  (callHandlers (get_logger name st).2 chain lvl msg).2
  = (callHandlers st chain lvl msg).2.
Proof.
  induction chain as [|c rest IH]; simpl; [done|].
  destruct (get_logger_appends name st c) as (new & Hnew & ->). simpl.
  rewrite handle_all_appended by done.
  destruct (propagate _); [|done].
  destruct (callHandlers (get_logger name st).2 rest lvl msg) as [f' o'].
  destruct (callHandlers st rest lvl msg) as [f o].
  simpl in *. by subst o'.
Qed.

Lemma to_handlers_last_resort (b : bool) lvl msg out :
  to_handlers
    (out ++ (if b then if decide (WARNING ≤ lvl)%nat then [(SinkStderr, msg)]
                       else []
             else []))
  = to_handlers out.
Proof.
  unfold to_handlers. rewrite omap_app.
  destruct b; [destruct (decide _)|]; simpl; by rewrite app_nil_r.
Qed.

(** X3. The null handler of [get_logger] does not stop records from
    travelling up the logger hierarchy: for a record of any level sent to
    any logger, the handlers of consumers, wherever they are attached,
    receive after [get_logger] exactly what they would have received
    before it. *)
Theorem get_logger_keeps_consumer_output
  (name : string) (st : logging_state) (n : string) (lvl : nat) (msg : string) :
  to_handlers (written lvl n msg (get_logger name st).2)
  = to_handlers (written lvl n msg st).
Proof.
  rewrite !written_cases, get_logger_isEnabledFor.
  destruct (isEnabledFor st n lvl); [|done].
  destruct (get_logger_appends name st n) as (new & _ & Hlg).
  rewrite Hlg. simpl.
  destruct (disabled (the_logger st n)); [done|].
  rewrite get_logger_callHandlers_out.
  destruct (decide (_ = 0)), (decide (_ = 0));
    by rewrite ?(to_handlers_last_resort true), ?(to_handlers_last_resort false).
Qed.

(** A consumer's handler on the root logger still sees a warning sent to a
    logger that [get_logger] prepared. *)
Example root_handler_still_reached :
  written WARNING "zhmcclient.hmc" "timeout"
    (get_logger "zhmcclient.hmc" root_listening).2
  = [(SinkHandler 5, "timeout")].
Proof. reflexivity. Qed.

(** ** Racing calls of [get_logger] stay silent *)

Lemma addHandler_silent name h st :
  silent st → h_kind h = NullHandler → silent (addHandler name h st).
Proof.
  intros Hs Hh n h' Hin. unfold addHandler in Hin.
  destruct (decide _); [by eapply Hs|].
  destruct (decide (name = n)) as [->|Hne].
  - rewrite the_logger_set_eq in Hin. simpl in Hin.
    apply elem_of_app in Hin as [Hin|Hin]; [by eapply Hs|].
    by apply list_elem_of_singleton in Hin as ->.
  - rewrite the_logger_set_ne in Hin by done. by eapply Hs.
Qed.

Lemma addHandler_nonempty name h st :
  handlers (the_logger (addHandler name h st) name) ≠ [].
Proof.
  unfold addHandler. destruct (decide _) as [Hin|_].
  - intros Hnil. rewrite Hnil in Hin. by apply elem_of_nil in Hin.
  - rewrite the_logger_set_eq. simpl. by destruct (handlers _).
Qed.

Lemma addHandler_keeps_nonempty name h st :
  handlers (the_logger st name) ≠ [] →
  handlers (the_logger (addHandler name h st) name) ≠ [].
Proof. intros _. apply addHandler_nonempty. Qed.

(** One step of one thread keeps the state silent, keeps a handler on the
    logger once it has one, and a thread only returns with a handler on the
    logger. *)
Lemma thread_step_silent name pc st :
  silent st → holds name pc → attaches_null pc →
  silent (thread_step name pc st).2
  ∧ holds name (thread_step name pc st).1
  ∧ attaches_null (thread_step name pc st).1
  ∧ (handlers (the_logger st name) ≠ [] →
     handlers (the_logger (thread_step name pc st).2 name) ≠ [])
  ∧ (has_returned (thread_step name pc st).1 → ¬ has_returned pc →
     handlers (the_logger (thread_step name pc st).2 name) ≠ []).
Proof.
  intros Hs Hh Hn. destruct pc as [|lg|lg|lg h|lg]; simpl in *; subst.
  - pose proof (getLogger_handle name st) as Hhd.
    pose proof (getLogger_the_logger name st) as Hsame.
    destruct (getLogger name st) as [lg st']; simpl in *.
    split_and!; try done.
    + intros n h. rewrite Hsame. apply Hs.
    + by rewrite Hsame.
  - destruct (decide _); simpl; split_and!; done.
  - split_and!; done.
  - split_and!; try done.
    + by apply addHandler_silent.
    + apply addHandler_keeps_nonempty.
    + intros _ _. apply addHandler_nonempty.
  - split_and!; done.
Qed.

Lemma Exists_insert_inv {A} (P : A → Prop) (l : list A) i x :
  Exists P (<[i := x]> l) → P x ∨ Exists P l.
Proof.
  intros (y & Hin & Hy)%Exists_exists.
  apply list_elem_of_lookup in Hin as [j Hj].
  destruct (decide (i = j)) as [->|Hne].
  - destruct (decide (j < length l)) as [Hlt|Hge].
    + rewrite list_lookup_insert_eq in Hj by done. left. by simplify_eq.
    + rewrite list_insert_ge in Hj by lia.
      right. apply Exists_exists. exists y. split; [|done].
      apply list_elem_of_lookup. eauto.
  - rewrite list_lookup_insert_ne in Hj by done.
    right. apply Exists_exists. exists y. split; [|done].
    apply list_elem_of_lookup. eauto.
Qed.

Lemma pool_step_silent name pool st i :
  silent st →
  Forall (λ pc, holds name pc ∧ attaches_null pc) pool →
  (Exists has_returned pool → handlers (the_logger st name) ≠ []) →
  silent (pool_step name (pool, st) i).2
  ∧ Forall (λ pc, holds name pc ∧ attaches_null pc) (pool_step name (pool, st) i).1
  ∧ (Exists has_returned (pool_step name (pool, st) i).1 →
     handlers (the_logger (pool_step name (pool, st) i).2 name) ≠ []).
Proof.
  intros Hs Hpool Hret. unfold pool_step. simpl.
  destruct (pool !! i) as [pc|] eqn:Hi; [|done].
  pose proof (Forall_lookup_1 _ _ _ _ Hpool Hi) as [Hh Hn].
  pose proof (thread_step_silent name pc st Hs Hh Hn)
    as (Hs' & Hh' & Hn' & Hkeep & Hnew).
  destruct (thread_step name pc st) as [pc' st']; simpl in *.
  split_and!; [done|by apply Forall_insert|].
  intros [Hpc'|Hold]%Exists_insert_inv; [|by apply Hkeep, Hret].
  destruct (decide (handlers (the_logger st name) = [])) as [Hnil|Hne];
    [|by apply Hkeep].
  apply Hnew; [done|]. intros Hpc. apply Hret; [|done].
  apply Exists_exists. exists pc. split; [|done].
  apply list_elem_of_lookup. eauto.
Qed.

Lemma run_schedule_cons name i schedule m :
  run_schedule name (i :: schedule) m
  = run_schedule name schedule (pool_step name m i).
Proof. reflexivity. Qed.

Lemma run_schedule_silent name schedule pool st :
  silent st →
  Forall (λ pc, holds name pc ∧ attaches_null pc) pool →
  (Exists has_returned pool → handlers (the_logger st name) ≠ []) →
  silent (run_schedule name schedule (pool, st)).2
  ∧ (Exists has_returned (run_schedule name schedule (pool, st)).1 →
     handlers (the_logger (run_schedule name schedule (pool, st)).2 name) ≠ []).
Proof.
  revert pool st.
  induction schedule as [|i schedule IH]; intros pool st Hs Hpool Hret;
    [done|].
  rewrite run_schedule_cons.
  pose proof (pool_step_silent name pool st i Hs Hpool Hret)
    as (Hs' & Hpool' & Hret').
  destruct (pool_step name (pool, st) i) as [pool' st'].
  by apply IH.
Qed.

(** X4. However the steps of [n] first-time calls of [get_logger] from [n]
    threads interleave, and although they may attach several handlers, when
    no consumer had attached a handler the logging state stays without one,
    and as soon as one of the calls has returned a record of any level sent
    to the logger writes nothing. *)
Theorem get_logger_threads_stay_silent
  (name : string) (n : nat) (schedule : list nat) (st : logging_state) :
  silent st →
  let m := run_schedule name schedule (replicate n AtGetLogger, st) in
  silent m.2
  ∧ (Exists has_returned m.1 →
     ∀ lvl msg, emitted (Logger_log lvl name msg m.2) = emitted m.2).
Proof.
  intros Hs m.
  destruct (run_schedule_silent name schedule (replicate n AtGetLogger) st Hs)
    as [Hsil Hret].
  - apply Forall_replicate. by split.
  - intros (pc & Hin & Hpc)%Exists_exists.
    apply elem_of_replicate in Hin as [-> _]. destruct Hpc.
  - split; [done|]. intros Hex lvl msg.
    apply Logger_log_silent; [done|by apply Hret].
Qed.

(** ** More on the decorator and its wrapper *)

Lemma Logger_log_not_enabled lvl name msg st :
  isEnabledFor st name lvl = false → Logger_log lvl name msg st = st.
Proof. intros H. unfold Logger_log. by rewrite H. Qed.

Lemma Logger_log_same_config lvl name msg st :
  same_config st (Logger_log lvl name msg st).
Proof.
  unfold Logger_log, same_config.
  destruct (isEnabledFor st name lvl); [|done].
  destruct (disabled _); [done|].
  by destruct (callHandlers st (logger_chain name) lvl msg).
Qed.

Lemma same_config_trans st1 st2 st3 :
  same_config st1 st2 → same_config st2 st3 → same_config st1 st3.
Proof.
  intros (? & ? & ?) (? & ? & ?). unfold same_config. split_and!; congruence.
Qed.

Lemma str_length_app (a b : string) :
  String.length (a +:+ b) = String.length a + String.length b.
Proof.
  induction a as [|c a IH]; [done|].
  change (String c a +:+ b) with (String c (a +:+ b)). simpl. by rewrite IH.
Qed.

Lemma first_component_fixed (p rest : string) :
  first_component p = p →
  first_component (p +:+ "." +:+ rest) = p.
Proof.
  induction p as [|c p IH]; [done|].
  change (String c p +:+ "." +:+ rest) with (String c (p +:+ "." +:+ rest)).
  simpl. destruct (Ascii.eqb c "."); [done|].
  intros [= Hp]. by rewrite IH.
Qed.

Lemma first_component_split (s : string) :
  s = first_component s ∨ ∃ rest, s = first_component s +:+ "." +:+ rest.
Proof.
  induction s as [|c s IH]; [by left|]. simpl.
  destruct (Ascii.eqb c ".") eqn:Hc.
  - apply Ascii.eqb_eq in Hc as ->. right. by exists s.
  - destruct IH as [IH|[rest IH]].
    + left. by rewrite <- IH.
    + right. exists rest.
      change (String c (first_component s) +:+ "." +:+ rest)
        with (String c (first_component s +:+ "." +:+ rest)).
      by rewrite <- IH.
Qed.

(** The callers the wrapper takes as internal are the modules of the
    package. *)
Lemma first_component_in_package nm :
  first_component nm = package_name ↔ in_package nm.
Proof.
  split.
  - intros Hfc. unfold in_package. rewrite <- Hfc. apply first_component_split.
  - intros [->|[rest ->]]; [done|]. by apply first_component_fixed.
Qed.

Section DecoratorMore.

Context {value : Type} (repr : value → string) (API_LOGGER_NAME : string).

#[local] Abbreviation pyobject := (@pyobject value).
#[local] Abbreviation event := (@event value).
#[local] Abbreviation decorated := (@decorated value).

(** X5. A decoration that succeeds wraps the function it was given and has
    it log to the one logger [API_LOGGER_NAME], whatever module defines the
    function; it leaves the logging state as [get_logger] leaves it, with a
    handler on that logger; and any further successful decoration, of any
    function from any frame, leaves that state unchanged: all decorated
    functions share the logger and its single null handler. *)
Theorem decoration_prepares_logger
  (func : pyobject) (this_frame : frame) (st st' : logging_state)
  (d : decorated) (tr : list event) :
  logged_api_call API_LOGGER_NAME func this_frame st = (Return d, st', tr) →
  wrapped d = func
  ∧ logger_of (caller_env d) = API_LOGGER_NAME
  ∧ tr = []
  ∧ st' = (get_logger API_LOGGER_NAME st).2
  ∧ handlers (the_logger st' API_LOGGER_NAME) ≠ []
  ∧ ∀ (func2 : pyobject) frame2 d2 st2 tr2,
      logged_api_call API_LOGGER_NAME func2 frame2 st' = (Return d2, st2, tr2) →
      st2 = st'.
Proof.
  intros Hrun.
  destruct (logged_api_call_cases API_LOGGER_NAME func this_frame st)
    as [[_ H]|[(o & Ho & H)|(Ho & H)]]; rewrite H in Hrun; try done.
  injection Hrun as <- <- <-. split_and!; try done.
  - rewrite get_logger_handlers. by destruct (decide _).
  - intros func2 frame2 d2 st2 tr2 Hrun2.
    destruct (logged_api_call_cases API_LOGGER_NAME func2 frame2
                (get_logger API_LOGGER_NAME st).2)
      as [[_ H2]|[(o2 & Ho2 & H2)|(Ho2 & H2)]]; rewrite H2 in Hrun2; try done.
    injection Hrun2 as <- <- <-. by rewrite get_logger_twice.
Qed.


(** X7. When the level [DEBUG] is not enabled for the logger, before the
    call and in the state the wrapped function leaves, a decorated call whose
    caller has a module name does to the logging state and returns or raises
    exactly what the wrapped function alone does, also for a caller outside
    the package. *)
Theorem wrapper_transparent_when_disabled
  (env : closure) (this_frame : frame) (func : pyobject)
  (args kwargs : value) (st : logging_state) (nm : string) :
  apicaller_module_name_of this_frame = Return nm →
  isEnabledFor st (logger_of env) DEBUG = false →
  isEnabledFor (obj_call func args kwargs st).2 (logger_of env) DEBUG = false →
  (log_api_call repr env this_frame func args kwargs st).1
  = obj_call func args kwargs st.
Proof.
  intros Hnm Hoff Hoff2.
  destruct (decide (first_component nm = package_name)) as [Htop|Htop].
  - rewrite (log_api_call_internal repr env this_frame func args kwargs st nm
               Hnm Htop). simpl. by destruct (obj_call _ _ _ _).
  - rewrite (log_api_call_external repr env this_frame func args kwargs st nm
               Hnm Htop). simpl.
    unfold Logger_debug. rewrite (Logger_log_not_enabled _ _ _ st) by done.
    destruct (obj_call func args kwargs st) as [[v|e] st2]; simpl in *;
      [|done].
    by rewrite Logger_log_not_enabled.
Qed.

(** X8. The wrapper never reconfigures logging: if the wrapped function
    keeps the loggers, handlers and levels as they are, so does the
    decorated call, whoever the caller is and whether or not it fails. *)
Theorem wrapper_keeps_configuration
  (env : closure) (this_frame : frame) (func : pyobject)
  (args kwargs : value) (st : logging_state) :
  (∀ s, same_config s (obj_call func args kwargs s).2) →
  same_config st (log_api_call repr env this_frame func args kwargs st).1.2.
Proof.
  intros Hfunc.
  destruct (log_api_call_run repr env this_frame func args kwargs st)
    as [e He|nm res st2 Hn Htop Hcall|nm v st2 Hn Htop Hcall
        |nm e st2 Hn Htop Hcall]; simpl.
  - done.
  - specialize (Hfunc st). by rewrite Hcall in Hfunc.
  - specialize (Hfunc (Logger_debug (logger_of env)
                         (entry_message repr (apifunc_str env) args kwargs) st)).
    rewrite Hcall in Hfunc. simpl in Hfunc.
    eapply same_config_trans;
      [apply (Logger_log_same_config DEBUG (logger_of env)
                (entry_message repr (apifunc_str env) args kwargs) st)|].
    eapply same_config_trans; [exact Hfunc|]. apply Logger_log_same_config.
  - specialize (Hfunc (Logger_debug (logger_of env)
                         (entry_message repr (apifunc_str env) args kwargs) st)).
    rewrite Hcall in Hfunc. simpl in Hfunc.
    eapply same_config_trans; [|exact Hfunc].
    apply (Logger_log_same_config DEBUG).
Qed.

(** X9. A call from outside the package in which the wrapped function
    returns hands exactly two records to the logger, both to the logger of
    the decorator: the entry record before the function is invoked, and
    after it the exit record of the very result that is returned. *)
Theorem logged_call_two_records
  (env : closure) (this_frame : frame) (func : pyobject)
  (args kwargs result : value) (st : logging_state) (nm : string) :
  apicaller_module_name_of this_frame = Return nm →
  ¬ in_package nm →
  let run := log_api_call repr env this_frame func args kwargs st in
  run.1.1 = Return result →
  run.2 = [LogDebug (logger_of env)
             (entry_message repr (apifunc_str env) args kwargs);
           Invoke args kwargs (Return result);
           LogDebug (logger_of env)
             (exit_message repr (apifunc_str env) result)].
Proof.
  intros Hnm Hout run Hres. subst run.
  rewrite <- first_component_in_package in Hout.
  destruct (log_api_call_run repr env this_frame func args kwargs st)
    as [e He|nm' res st2 Hn Htop Hcall|nm' v st2 Hn Htop Hcall
        |nm' e st2 Hn Htop Hcall];
    simpl in *; congruence.
Qed.

(** X10. The wrapper takes a caller as internal exactly when the name of
    its module is [zhmcclient] or starts with [zhmcclient.]: for a caller
    whose module has a name, no record is handed to the logger if and only
    if the module is one of the package.  A module whose name only begins
    with the letters of the package name, such as [zhmcclient_mock], is an
    outside caller. *)
Theorem internal_callers_are_package_modules
  (env : closure) (this_frame : frame) (func : pyobject)
  (args kwargs : value) (st : logging_state) (nm : string) :
  apicaller_module_name_of this_frame = Return nm →
  log_records (log_api_call repr env this_frame func args kwargs st).2 = []
  ↔ nm = "zhmcclient" ∨ ∃ rest, nm = "zhmcclient." +:+ rest.
Proof.
  intros Hnm.
  change (nm = "zhmcclient" ∨ ∃ rest, nm = "zhmcclient." +:+ rest)
    with (in_package nm).
  rewrite <- first_component_in_package.
  destruct (log_api_call_run repr env this_frame func args kwargs st)
    as [e He|nm' res st2 Hn Htop Hcall|nm' v st2 Hn Htop Hcall
        |nm' e st2 Hn Htop Hcall];
    simpl; try congruence; rewrite Hnm in Hn; injection Hn as <-; by split.
Qed.

(** X11. The caps bound the size of every record whatever the size of the
    arguments and of the result: a record handed to the logger is at most
    1022 characters longer than the display name. *)
Theorem log_record_length_bound
  (env : closure) (this_frame : frame) (func : pyobject)
  (args kwargs : value) (st : logging_state) (lg msg : string) :
  (lg, msg) ∈ log_records (log_api_call repr env this_frame func args kwargs st).2 →
  String.length msg ≤ String.length (apifunc_str env) + 1022.
Proof.
  intros Hin.
  apply wrapper_log_records in Hin as (_ & [->|(result & _ & ->)]);
    unfold entry_message, exit_message, format_r;
    rewrite !str_length_app, !str_take_length; cbn [String.length]; lia.
Qed.

Lemma call_decorated_frame_name (d : decorated) caller :
  apicaller_module_name_of
    (Frame "log_api_call" (Some (PyModule (Some "zhmcclient._logging")))
       (Some (Frame (obj_name (wrapped d)) None caller)))
  = getattr_name (inspect_getmodule_frame caller).
Proof. by erewrite apicaller_two_frames_up by reflexivity. Qed.

Lemma delegating_internal (d : decorated) lib_frame m nm args kwargs st :
  f_module lib_frame = Some m → module_name m = Some nm → in_package nm →
  delegating repr d lib_frame args kwargs st
  = obj_call (wrapped d) args kwargs st.
Proof.
  intros Hm Hnm Hin. unfold delegating, call_decorated.
  rewrite (log_api_call_internal repr _ _ _ _ _ _ nm).
  - by destruct (obj_call _ _ _ _).
  - rewrite call_decorated_frame_name.
    unfold inspect_getmodule_frame, getattr_name. by rewrite Hm, Hnm.
  - by apply first_component_in_package.
Qed.

(** X12. Calls between decorated functions inside the package cost
    nothing: an API function whose body calls another decorated API function
    from a module of the package runs, when it is itself called through its
    decorator, exactly as if its body called the undecorated function, with
    the same result, state and trace; only the outermost call is logged. *)
Theorem delegation_is_transparent
  (env : closure) (this_frame : frame) (d : decorated) (lib_frame : frame)
  (m : pymodule) (nm : string) (isf : bool) (defmod : option pymodule)
  (name : string) (args kwargs : value) (st : logging_state) :
  f_module lib_frame = Some m → module_name m = Some nm → in_package nm →
  log_api_call repr env this_frame
    (PyObject isf defmod name (delegating repr d lib_frame)) args kwargs st
  = log_api_call repr env this_frame
      (PyObject isf defmod name (obj_call (wrapped d))) args kwargs st.
Proof.
  intros Hm Hnm Hin.
  pose proof (λ a k s, delegating_internal d lib_frame m nm a k s Hm Hnm Hin)
    as Hdel.
  destruct (apicaller_module_name_of this_frame) as [cnm|e] eqn:Hc.
  - destruct (decide (first_component cnm = package_name)) as [Htop|Htop].
    + rewrite !(log_api_call_internal repr env this_frame _ args kwargs st cnm
                  Hc Htop). simpl. by rewrite Hdel.
    + rewrite !(log_api_call_external repr env this_frame _ args kwargs st cnm
                  Hc Htop). simpl. by rewrite Hdel.
  - by rewrite !(log_api_call_failed repr env this_frame _ args kwargs st e Hc).
Qed.


End DecoratorMore.

(** ** Turning logging on *)

Lemma handle_all_delivers hs lvl msg h :
  h ∈ hs → h_kind h = StreamHandler → (h_level h ≤ lvl)%nat →
  (SinkHandler (h_id h), msg) ∈ handle_all hs lvl msg.
Proof.
  intros Hin Hk Hl. induction hs as [|h' hs IH]; [by apply elem_of_nil in Hin|].
  simpl. apply elem_of_app.
  apply elem_of_cons in Hin as [<-|Hin]; [left|right; by apply IH].
  rewrite decide_True by done. unfold Handler_handle. rewrite Hk.
  apply list_elem_of_here.
Qed.

Lemma Logger_log_delivers lvl name msg st h :
  isEnabledFor st name lvl = true →
  disabled (the_logger st name) = false →
  h ∈ handlers (the_logger st name) →
  h_kind h = StreamHandler → (h_level h ≤ lvl)%nat →
  (SinkHandler (h_id h), msg) ∈ written lvl name msg st.
Proof.
  intros Hen Hdis Hin Hk Hl. rewrite written_cases, Hen, Hdis.
  destruct (logger_chain_head name) as [rest ->].
  apply elem_of_app. left. simpl.
  pose proof (handle_all_delivers _ lvl msg h Hin Hk Hl) as Hd.
  destruct (propagate _); [|done].
  destruct (callHandlers st rest lvl msg). simpl.
  apply elem_of_app. by left.
Qed.

Lemma written_emitted lvl name msg st :
  emitted (Logger_log lvl name msg st) = emitted st ++ written lvl name msg st.
Proof.
  rewrite written_cases. unfold Logger_log.
  destruct (isEnabledFor st name lvl); [|by rewrite app_nil_r].
  destruct (disabled _); [by rewrite app_nil_r|].
  by destruct (callHandlers st (logger_chain name) lvl msg).
Qed.

Section TurningLoggingOn.

Context {value : Type} (repr : value → string).

#[local] Abbreviation pyobject := (@pyobject value).

(** X14. Logging turned on the way the module describes works: when a
    consumer has attached a handler of its own to the logger of the
    decorator and the level [DEBUG] is enabled for it, then in a call from
    outside the package the entry record has reached that handler before the
    wrapped function is invoked: the function runs in a state whose output
    holds the record, and the call returns or raises what the function does
    in that state. *)
Theorem consumer_receives_entry_record
  (env : closure) (this_frame : frame) (func : pyobject)
  (args kwargs : value) (st : logging_state) (nm : string) (h : handler) :
  apicaller_module_name_of this_frame = Return nm →
  ¬ in_package nm →
  isEnabledFor st (logger_of env) DEBUG = true →
  disabled (the_logger st (logger_of env)) = false →
  h ∈ handlers (the_logger st (logger_of env)) →
  h_kind h = StreamHandler → (h_level h ≤ DEBUG)%nat →
  let entry := entry_message repr (apifunc_str env) args kwargs in
  let st1 := Logger_debug (logger_of env) entry st in
  (SinkHandler (h_id h), entry) ∈ emitted st1
  ∧ (log_api_call repr env this_frame func args kwargs st).1.1
    = (obj_call func args kwargs st1).1.
Proof.
  intros Hnm Hout Hen Hdis Hin Hk Hl entry st1. split.
  - subst st1. unfold Logger_debug. rewrite written_emitted.
    apply elem_of_app. right. by apply Logger_log_delivers.
  - rewrite <- first_component_in_package in Hout.
    rewrite (log_api_call_external repr env this_frame func args kwargs st nm
               Hnm Hout). simpl. fold entry. fold st1.
    by destruct (obj_call func args kwargs st1) as [[v|e] st2].
Qed.

End TurningLoggingOn.

(** ** Instances of the further properties *)

Lemma logging_initial_silent : silent logging_initial.
Proof.
  intros n h Hin. unfold the_logger in Hin; simpl in Hin.
  rewrite lookup_empty in Hin. simpl in Hin. by apply elem_of_nil in Hin.
Qed.

Lemma get_logger_silences_last_resort_witness :
  (SinkHandler 5, "timeout").1 ≠ SinkStderr.
Proof.
  apply (get_logger_silences_last_resort "zhmcclient.hmc" root_listening
           WARNING "timeout" (SinkHandler 5, "timeout")).
  vm_compute. apply list_elem_of_here.
Defined.

Lemma get_logger_threads_stay_silent_witness :
  let m := run_schedule "zhmcclient.api" racing_schedule
             (replicate 2 AtGetLogger, logging_initial) in
  silent m.2
  ∧ (Exists has_returned m.1 →
     ∀ lvl msg, emitted (Logger_log lvl "zhmcclient.api" msg m.2) = emitted m.2).
Proof.
  apply (get_logger_threads_stay_silent "zhmcclient.api" 2 racing_schedule
           logging_initial).
  exact logging_initial_silent.
Defined.

Lemma decoration_prepares_logger_witness :
  wrapped decorated_list = list_cpcs
  ∧ logger_of (caller_env decorated_list) = API_LOGGER_NAME
  ∧ @nil (@event string) = []
  ∧ decorated_state = (get_logger API_LOGGER_NAME logging_initial).2
  ∧ handlers (the_logger decorated_state API_LOGGER_NAME) ≠ []
  ∧ ∀ (func2 : @pyobject string) frame2 d2 st2 tr2,
      logged_api_call API_LOGGER_NAME func2 frame2 decorated_state
      = (Return d2, st2, tr2) →
      st2 = decorated_state.
Proof.
  apply (decoration_prepares_logger API_LOGGER_NAME list_cpcs decorator_frame
           logging_initial decorated_state decorated_list []).
  reflexivity.
Defined.


Lemma wrapper_transparent_when_disabled_witness :
  (log_api_call text_repr (caller_env decorated_list)
     (wrapper_frame "list" (Some script_frame)) list_cpcs "()" "{}"
     decorated_state).1
  = obj_call list_cpcs "()" "{}" decorated_state.
Proof.
  apply (wrapper_transparent_when_disabled text_repr (caller_env decorated_list)
           (wrapper_frame "list" (Some script_frame)) list_cpcs "()" "{}"
           decorated_state "__main__"); reflexivity.
Defined.

Lemma wrapper_keeps_configuration_witness :
  same_config listening
    (log_api_call text_repr (caller_env decorated_list)
       (wrapper_frame "list" (Some script_frame)) list_cpcs "()" "{}"
       listening).1.2.
Proof.
  apply (wrapper_keeps_configuration text_repr (caller_env decorated_list)
           (wrapper_frame "list" (Some script_frame)) list_cpcs "()" "{}"
           listening).
  intros s. simpl. unfold same_config. split_and!; reflexivity.
Defined.

Lemma logged_call_two_records_witness :
  (log_api_call text_repr (caller_env decorated_list)
     (wrapper_frame "list" (Some script_frame)) list_cpcs "()" "{}"
     listening).2
  = [LogDebug API_LOGGER_NAME
       (entry_message text_repr "CpcManager.list()" "()" "{}");
     Invoke "()" "{}" (Return "[]");
     LogDebug API_LOGGER_NAME (exit_message text_repr "CpcManager.list()" "[]")].
Proof.
  apply (logged_call_two_records text_repr (caller_env decorated_list)
           (wrapper_frame "list" (Some script_frame)) list_cpcs "()" "{}" "[]"
           listening "__main__").
  - reflexivity.
  - intros [H|[rest H]]; discriminate H.
  - reflexivity.
Defined.

Lemma internal_callers_are_package_modules_witness :
  log_records
    (log_api_call text_repr (caller_env decorated_list)
       (wrapper_frame "list" (Some mock_frame)) list_cpcs "()" "{}"
       listening).2 = []
  ↔ "zhmcclient_mock._urihandler" = "zhmcclient"
    ∨ ∃ rest, "zhmcclient_mock._urihandler" = "zhmcclient." +:+ rest.
Proof.
  apply (internal_callers_are_package_modules text_repr
           (caller_env decorated_list) (wrapper_frame "list" (Some mock_frame))
           list_cpcs "()" "{}" listening "zhmcclient_mock._urihandler").
  reflexivity.
Defined.

Lemma log_record_length_bound_witness :
  String.length "==> CpcManager.list(), args: (), kwargs: {}"
  ≤ String.length "CpcManager.list()" + 1022.
Proof.
  apply (log_record_length_bound text_repr (caller_env decorated_list)
           (wrapper_frame "list" (Some script_frame)) list_cpcs "()" "{}"
           listening API_LOGGER_NAME
           "==> CpcManager.list(), args: (), kwargs: {}").
  vm_compute. apply list_elem_of_here.
Defined.

Lemma delegation_is_transparent_witness :
  log_api_call text_repr (Closure "CpcManager.find()" API_LOGGER_NAME)
    (wrapper_frame "find" (Some script_frame))
    (PyObject true (Some cpc_module) "find"
       (delegating text_repr decorated_list library_frame)) "()" "{}" listening
  = log_api_call text_repr (Closure "CpcManager.find()" API_LOGGER_NAME)
      (wrapper_frame "find" (Some script_frame))
      (PyObject true (Some cpc_module) "find" (obj_call list_cpcs))
      "()" "{}" listening.
Proof.
  apply (delegation_is_transparent text_repr
           (Closure "CpcManager.find()" API_LOGGER_NAME)
           (wrapper_frame "find" (Some script_frame)) decorated_list
           library_frame (PyModule (Some "zhmcclient._manager"))
           "zhmcclient._manager" true (Some cpc_module) "find" "()" "{}"
           listening).
  - reflexivity.
  - reflexivity.
  - right. by exists "_manager".
Defined.


Lemma consumer_receives_entry_record_witness :
  let entry := entry_message text_repr "CpcManager.list()" "()" "{}" in
  let st1 := Logger_debug API_LOGGER_NAME entry listening in
  (SinkHandler 7, entry) ∈ emitted st1
  ∧ (log_api_call text_repr (caller_env decorated_list)
       (wrapper_frame "list" (Some script_frame)) list_cpcs "()" "{}"
       listening).1.1
    = (obj_call list_cpcs "()" "{}" st1).1.
Proof.
  apply (consumer_receives_entry_record text_repr (caller_env decorated_list)
           (wrapper_frame "list" (Some script_frame)) list_cpcs "()" "{}"
           listening "__main__" (Handler 7 StreamHandler NOTSET)).
  - reflexivity.
  - intros [H|[rest H]]; discriminate H.
  - reflexivity.
  - reflexivity.
  - vm_compute. apply list_elem_of_further, list_elem_of_here.
  - reflexivity.
  - vm_compute. lia.
Defined.
